(** * Showcase.tsx: the artwork table and its cross-page bulk selection

    A shallow embedding of [src/components/Showcase.tsx] (the component
    [ArtworkDataTable]) and the properties of its handlers.

    Conventions of the embedding.
    - JavaScript numbers that the component counts with (page indices,
      totals, the pending-selection counter, years) are integers and are
      modelled by [Z]; this is exact below 2^53.
    - A JavaScript string is a [string], each character one code unit in
      the range 0..255.
    - The object [{ [key: string]: Artwork }] used as a dictionary is a
      [gmap Z Artwork]: a record is stored under the decimal spelling of
      its numeric id, which is injective on integers.
    - React state is one record, [State]; a render happens after every
      event, so a closure created by a render sees the state of that
      render.  The asynchronous [fetchArtworks] is split at its [await]:
      the part before it starts a request, which is kept in the list
      [inflight] together with what the closure captured, and the part
      after it runs when the environment delivers the outcome. *)

From Stdlib Require Import ZArith String Ascii List Lia Bool.
From stdpp Require Import base gmap strings list pretty.

Open Scope Z_scope.

(** ** JavaScript values of the record fields *)

Module Js.

(** The values a field of the JSON response can hold in this program. *)
Inductive value : Type :=
| Undefined
| Null
| Num (n : Z)
| Str (s : string).

#[global] Instance value_eq_dec : EqDecision value.
Proof. solve_decision. Defined.

(** ToBoolean. *)
Definition truthy (v : value) : bool :=
  match v with
  | Undefined | Null => false
  | Num n => negb (n =? 0)
  | Str s => negb (String.eqb s EmptyString)
  end.

(** [a || b]. *)
Definition or (a b : value) : value := if truthy a then a else b.

(** [a === b]. *)
Definition strict_eq (a b : value) : bool := bool_decide (a = b).

(** ToString, as a template literal and a rendered table cell apply it. *)
Definition to_string (v : value) : string :=
  match v with
  | Undefined => "undefined"
  | Null => "null"
  | Num n => pretty n
  | Str s => s
  end.

(** A field is absent when the response leaves it out or sends [null]. *)
Definition absent (v : value) : Prop := v = Undefined \/ v = Null.

(** *** [parseInt(string)] with the radix left out *)

Definition code (c : ascii) : Z := Z.of_nat (nat_of_ascii c).

(** White space of the code units below 256: TAB, LF, VT, FF, CR, SP, NBSP. *)
Definition is_white_space (c : ascii) : bool :=
  let n := code c in
  ((9 <=? n) && (n <=? 13)) || (n =? 32) || (n =? 160).

Fixpoint trim_start (s : string) : string :=
  match s with
  | String c s' => if is_white_space c then trim_start s' else s
  | EmptyString => s
  end.

(** The value of [c] as a digit of radix [R], when it is one. *)
Definition digit_val (R : Z) (c : ascii) : option Z :=
  let n := code c in
  let d :=
    if (48 <=? n) && (n <=? 57) then Some (n - 48)
    else if (97 <=? n) && (n <=? 122) then Some (n - 87)
    else if (65 <=? n) && (n <=? 90) then Some (n - 55)
    else None in
  match d with
  | Some v => if v <? R then Some v else None
  | None => None
  end.

(** The number spelled by the longest prefix of radix-[R] digits. *)
Fixpoint digits_value (R : Z) (s : string) (acc : Z) : Z :=
  match s with
  | String c s' =>
      match digit_val R c with
      | Some d => digits_value R s' (acc * R + d)
      | None => acc
      end
  | EmptyString => acc
  end.

Definition strip_sign (s : string) : Z * string :=
  match s with
  | String "-" r => (-1, r)
  | String "+" r => (1, r)
  | _ => (1, s)
  end.

Definition strip_prefix (s : string) : Z * string :=
  match s with
  | String "0" (String "x" r) => (16, r)
  | String "0" (String "X" r) => (16, r)
  | _ => (10, s)
  end.

(** [Number.MAX_SAFE_INTEGER], 2^53 - 1: up to this magnitude every
    integer is a binary64 number and sums and differences of such
    integers that stay within it are exact. *)
Definition max_safe_integer : Z := 2 ^ 53 - 1.

(** [parseInt s]; [None] is NaN.  The result is the integer the digits
    spell; the builtin rounds it to binary64, which is the same number up
    to [max_safe_integer]. *)
Definition parseInt (s : string) : option Z :=
  let '(sign, s1) := strip_sign (trim_start s) in
  let '(R, s2) := strip_prefix s1 in
  match s2 with
  | String c _ =>
      match digit_val R c with
      | Some _ => Some (sign * digits_value R s2 0)
      | None => None
      end
  | EmptyString => None
  end.

(** [arr.slice(0, e)]: a negative end counts from the end of the array. *)
Definition slice0 {A} (e : Z) (l : list A) : list A :=
  let len := Z.of_nat (length l) in
  let k := if e <? 0 then Z.max (len + e) 0 else Z.min e len in
  take (Z.to_nat k) l.

End Js.

(** ** The data model *)

(** [interface Artwork]; the fields other than [id] hold what the response
    or the defaulting put there. *)
Record Artwork : Type := mkArtwork {
  id : Z;
  title : Js.value;
  place_of_origin : Js.value;
  artist_display : Js.value;
  inscriptions : Js.value;
  date_start : Js.value;
  date_end : Js.value
}.

#[global] Instance Artwork_eq_dec : EqDecision Artwork.
Proof. solve_decision. Defined.

(** The callback of [data.data.map] in [fetchArtworks]. *)
Definition transform (artwork : Artwork) : Artwork :=
  {| id := id artwork;
     title := title artwork;
     place_of_origin := Js.or (place_of_origin artwork) (Js.Str "Unknown");
     artist_display := Js.or (artist_display artwork) (Js.Str "Unknown Artist");
     inscriptions := Js.or (inscriptions artwork) (Js.Str "No Inscriptions");
     date_start := Js.or (date_start artwork) (Js.Str "N/A");
     date_end := Js.or (date_end artwork) (Js.Str "N/A") |}.

(** The body template of the Date column; the table renders what it
    returns with [Js.to_string]. *)
Definition dateTemplate (rowData : Artwork) : Js.value :=
  if Js.strict_eq (date_start rowData) (date_end rowData)
  then date_start rowData
  else Js.Str (Js.to_string (date_start rowData) +:+ " - "
               +:+ Js.to_string (date_end rowData)).

Definition render_date (rowData : Artwork) : string :=
  Js.to_string (dateTemplate rowData).

(** ** The state of the component *)

(** A message handed to [toastRef.current.show]. *)
Record Toast : Type := mkToast {
  severity : string;
  summary : string;
  detail : string;
  life : Z
}.

(** A request that [fetchArtworks] has sent and not yet heard back from:
    the page and the page size of its URL, and the [selectedArtworks] of
    the render whose closure sent it. *)
Record Fetch : Type := mkFetch {
  req_page : Z;
  req_limit : Z;
  captured : gmap Z Artwork
}.

(** The [useState] cells, the [remainingToSelect] ref, and what the
    component holds outside React: whether the overlay panel is open, the
    toasts shown so far, and the requests in flight. *)
Record State : Type := mkState {
  selectedArtworks : gmap Z Artwork;
  artworks : list Artwork;
  loading : bool;
  currentPage : Z;
  totalRecords : Z;
  rows : Z;
  rowsToSelect : string;
  totalSelected : Z;
  remainingToSelect : Z;
  overlayOpen : bool;
  toasts : list Toast;
  inflight : list Fetch
}.

Definition setSelectedArtworks (v : gmap Z Artwork) (s : State) : State :=
  mkState v (artworks s) (loading s) (currentPage s) (totalRecords s) (rows s)
    (rowsToSelect s) (totalSelected s) (remainingToSelect s) (overlayOpen s)
    (toasts s) (inflight s).

Definition setArtworks (v : list Artwork) (s : State) : State :=
  mkState (selectedArtworks s) v (loading s) (currentPage s) (totalRecords s)
    (rows s) (rowsToSelect s) (totalSelected s) (remainingToSelect s)
    (overlayOpen s) (toasts s) (inflight s).

Definition setLoading (v : bool) (s : State) : State :=
  mkState (selectedArtworks s) (artworks s) v (currentPage s) (totalRecords s)
    (rows s) (rowsToSelect s) (totalSelected s) (remainingToSelect s)
    (overlayOpen s) (toasts s) (inflight s).

Definition setCurrentPage (v : Z) (s : State) : State :=
  mkState (selectedArtworks s) (artworks s) (loading s) v (totalRecords s)
    (rows s) (rowsToSelect s) (totalSelected s) (remainingToSelect s)
    (overlayOpen s) (toasts s) (inflight s).

Definition setTotalRecords (v : Z) (s : State) : State :=
  mkState (selectedArtworks s) (artworks s) (loading s) (currentPage s) v
    (rows s) (rowsToSelect s) (totalSelected s) (remainingToSelect s)
    (overlayOpen s) (toasts s) (inflight s).

Definition setRows (v : Z) (s : State) : State :=
  mkState (selectedArtworks s) (artworks s) (loading s) (currentPage s)
    (totalRecords s) v (rowsToSelect s) (totalSelected s)
    (remainingToSelect s) (overlayOpen s) (toasts s) (inflight s).

Definition setRowsToSelect (v : string) (s : State) : State :=
  mkState (selectedArtworks s) (artworks s) (loading s) (currentPage s)
    (totalRecords s) (rows s) v (totalSelected s) (remainingToSelect s)
    (overlayOpen s) (toasts s) (inflight s).

(** [setTotalSelected] takes a value or, as in the sweep, an updater of
    the previous value; this is the updater form. *)
Definition setTotalSelected (f : Z -> Z) (s : State) : State :=
  mkState (selectedArtworks s) (artworks s) (loading s) (currentPage s)
    (totalRecords s) (rows s) (rowsToSelect s) (f (totalSelected s))
    (remainingToSelect s) (overlayOpen s) (toasts s) (inflight s).

(** [remainingToSelect.current = v]. *)
Definition set_remainingToSelect (v : Z) (s : State) : State :=
  mkState (selectedArtworks s) (artworks s) (loading s) (currentPage s)
    (totalRecords s) (rows s) (rowsToSelect s) (totalSelected s) v
    (overlayOpen s) (toasts s) (inflight s).

Definition set_overlayOpen (v : bool) (s : State) : State :=
  mkState (selectedArtworks s) (artworks s) (loading s) (currentPage s)
    (totalRecords s) (rows s) (rowsToSelect s) (totalSelected s)
    (remainingToSelect s) v (toasts s) (inflight s).

(** [toastRef.current?.show(t)]. *)
Definition toast_show (t : Toast) (s : State) : State :=
  mkState (selectedArtworks s) (artworks s) (loading s) (currentPage s)
    (totalRecords s) (rows s) (rowsToSelect s) (totalSelected s)
    (remainingToSelect s) (overlayOpen s) (toasts s ++ [t]) (inflight s).

Definition set_inflight (v : list Fetch) (s : State) : State :=
  mkState (selectedArtworks s) (artworks s) (loading s) (currentPage s)
    (totalRecords s) (rows s) (rowsToSelect s) (totalSelected s)
    (remainingToSelect s) (overlayOpen s) (toasts s) v.

(** The [useState] and [useRef] initial values. *)
Definition initial : State :=
  {| selectedArtworks := ∅; artworks := []; loading := false;
     currentPage := 1; totalRecords := 0; rows := 12;
     rowsToSelect := EmptyString;
     totalSelected := 0; remainingToSelect := 0; overlayOpen := false;
     toasts := []; inflight := [] |}.

(** ** Statements that may throw *)

(** A block of statements either runs to its end or throws; the state
    updates made before the throw stay made. *)
Inductive Completion : Type :=
| Normal (s : State)
| Thrown (s : State).

Definition Stmt : Type := State -> Completion.

Definition exec (f : State -> State) : Stmt := fun s => Normal (f s).
Definition throw : Stmt := Thrown.
Definition skip : Stmt := Normal.

Definition seq (a b : Stmt) : Stmt :=
  fun s => match a s with Normal s' => b s' | Thrown s' => Thrown s' end.

Notation "a ;;; b" := (seq a b) (at level 90, right associativity).

(** [try { body } catch (error) { handler }]. *)
Definition try_catch (body : Stmt) (handler : State -> State) (s : State) : State :=
  match body s with Normal s' => s' | Thrown s' => handler s' end.

(** ** [fetchArtworks] *)

(** What the environment answers to a request.  [Body data pagination] is
    a response whose body parsed as JSON: [data] is [None] when
    [data.data.map(...)] throws (no [data] member, or not an array of
    objects), and [pagination] is [None] when reading
    [data.pagination.total] throws (no [pagination] member). *)
Inductive FetchOutcome : Type :=
| FetchRejected
| JsonRejected
| Body (data : option (list Artwork)) (pagination : option Z).

(** Lines 35 to 37, up to the first [await]: the loading flag is raised
    and the request leaves with the closure's [page], [rows] and
    [selectedArtworks]. *)
Definition fetchArtworks_start (page limit : Z) (sel : gmap Z Artwork)
    (s : State) : State :=
  set_inflight (inflight s ++ [mkFetch page limit sel]) (setLoading true s).

(** The [forEach] of line 56: [newSelections[artwork.id] = artwork]. *)
Definition add_selections (recs : list Artwork) (sel : gmap Z Artwork)
    : gmap Z Artwork :=
  fold_left (fun acc artwork => <[id artwork := artwork]> acc) recs sel.

(** Lines 53 to 62: the sweep over a freshly fetched page. *)
Definition sweep (f : Fetch) (transformedData : list Artwork) (s : State) : State :=
  if 0 <? remainingToSelect s then
    let toSelect :=
      Z.min (remainingToSelect s) (Z.of_nat (length transformedData)) in
    let newSelections :=
      add_selections (Js.slice0 toSelect transformedData) (captured f) in
    setTotalSelected (fun prevTotal => prevTotal + toSelect)
      (set_remainingToSelect (remainingToSelect s - toSelect)
         (setSelectedArtworks newSelections s))
  else s.

Definition fetch_failed_toast : Toast :=
  {| severity := "error"; summary := "Error";
     detail := "Failed to fetch artworks"; life := 3000 |}.

(** Lines 63 to 67. *)
Definition on_catch (s : State) : State :=
  toast_show fetch_failed_toast (setLoading false s).

(** Lines 37 to 62 inside the [try]. *)
Definition fetchArtworks_try (f : Fetch) (o : FetchOutcome) : Stmt :=
  match o with
  | FetchRejected => throw
  | JsonRejected => throw
  | Body None _ => throw
  | Body (Some data) pagination =>
      let transformedData := map transform data in
      exec (setArtworks transformedData) ;;;
      match pagination with
      | Some total => exec (setTotalRecords total)
      | None => throw
      end ;;;
      exec (setLoading false) ;;;
      exec (sweep f transformedData)
  end.

(** The rest of [fetchArtworks] once request [f] is answered by [o]. *)
Definition fetchArtworks_resume (f : Fetch) (o : FetchOutcome) : State -> State :=
  try_catch (fetchArtworks_try f o) on_catch.

(** ** The effect and the handlers *)

(** Mounting runs the effect once: [fetchArtworks(currentPage)] from the
    first render. *)
Definition mount : State :=
  fetchArtworks_start (currentPage initial) (rows initial)
    (selectedArtworks initial) initial.

(** [useEffect(() => { fetchArtworks(currentPage); }, [currentPage, rows])]
    after a render: [prev] is the state of the render before. *)
Definition effect (prev s : State) : State :=
  if bool_decide (currentPage s = currentPage prev)
     && bool_decide (rows s = rows prev)
  then s
  else fetchArtworks_start (currentPage s) (rows s) (selectedArtworks s) s.

(** [onPage]; [page] is [event.page], which may be undefined. *)
Definition onPage (page : option Z) (event_rows : Z) (s : State) : State :=
  let s1 := match page with
            | Some p => setCurrentPage (p + 1) s
            | None => s
            end in
  effect s (setRows event_rows s1).

(** [handleRowSelectionSubmit].  The [fetchArtworks] it calls is the one
    of the render the handler belongs to, so the request carries the
    [currentPage], [rows] and [selectedArtworks] of [s]. *)
Definition handleRowSelectionSubmit (s : State) : State :=
  match Js.parseInt (rowsToSelect s) with
  | None => s
  | Some numRows =>
      if numRows <=? 0 then s
      else
        fetchArtworks_start (currentPage s) (rows s) (selectedArtworks s)
          (set_overlayOpen false
             (setRowsToSelect EmptyString
                (set_remainingToSelect numRows
                   (setTotalSelected (fun _ => 0)
                      (setSelectedArtworks ∅ s)))))
  end.

(** [onSelectionChange]; [selection] is [e.value]. *)
Definition onSelectionChange (selection : list Artwork) (s : State) : State :=
  let newSelections := add_selections selection ∅ in
  let len := Z.of_nat (length selection) in
  let s1 := setTotalSelected (fun _ => len)
              (setSelectedArtworks newSelections s) in
  if 0 <? remainingToSelect s1
  then set_remainingToSelect (Z.max 0 (remainingToSelect s1 - len)) s1
  else s1.

(** The [onClick] of the Clear Selection button. *)
Definition clearSelection (s : State) : State :=
  set_remainingToSelect 0
    (setTotalSelected (fun _ => 0) (setSelectedArtworks ∅ s)).

(** ** Events *)

Inductive Event : Type :=
| PageChange (page : option Z) (event_rows : Z)
| InputChange (v : string)
| Submit
| SelectionChange (selection : list Artwork)
| ClearSelection
| ToggleOverlay
| FetchSettled (i : nat) (o : FetchOutcome).

(** One event; [FetchSettled i o] answers the [i]-th request in flight,
    in whatever order the network does. *)
Definition step (s : State) (e : Event) : State :=
  match e with
  | PageChange page event_rows => onPage page event_rows s
  | InputChange v => setRowsToSelect v s
  | Submit => handleRowSelectionSubmit s
  | SelectionChange selection => onSelectionChange selection s
  | ClearSelection => clearSelection s
  | ToggleOverlay => set_overlayOpen (negb (overlayOpen s)) s
  | FetchSettled i o =>
      match inflight s !! i with
      | Some f => fetchArtworks_resume f o (set_inflight (delete i (inflight s)) s)
      | None => s
      end
  end.

Definition run (s : State) (es : list Event) : State := fold_left step es s.

Inductive reachable : State -> Prop :=
| reachable_mount : reachable mount
| reachable_step s e : reachable s -> reachable (step s e).

(** [accepts s e]: [e] is a bulk-select submission that passes the guard
    of [handleRowSelectionSubmit] in [s]. *)
Definition accepts (s : State) (e : Event) : bool :=
  match e with
  | Submit =>
      match Js.parseInt (rowsToSelect s) with
      | Some numRows => negb (numRows <=? 0)
      | None => false
      end
  | _ => false
  end.

(** No event of [es], run from [s], is an accepted submission. *)
Fixpoint no_submission (s : State) (es : list Event) : Prop :=
  match es with
  | [] => True
  | e :: es' => accepts s e = false /\ no_submission (step s e) es'
  end.

(** ** Vocabulary of the properties *)

Definition is_decimal_digit (c : ascii) : bool :=
  (48 <=? Js.code c) && (Js.code c <=? 57).



Definition starts_with_decimal (rest : string) : bool :=
  match rest with
  | String c _ => is_decimal_digit c
  | EmptyString => false
  end.

(** After white space and a sign, the input goes on with a decimal digit. *)
Definition leads_with_digit (input : string) : bool :=
  starts_with_decimal (snd (Js.strip_sign (Js.trim_start input))).

(** The guard of [handleRowSelectionSubmit] turns the input away:
    [isNaN(numRows) || numRows <= 0]. *)
Definition rejected (input : string) : Prop :=
  Js.parseInt input = None \/ exists n, Js.parseInt input = Some n /\ n <= 0.

(** The number of records of [selection] that [sel] does not hold yet. *)
Definition newly_added (sel : gmap Z Artwork) (selection : list Artwork) : Z :=
  Z.of_nat (length (filter (fun a => sel !! id a = None) selection)).

(** The ways a fetcher could keep completions apart. *)
Definition one_at_a_time : Prop :=
  forall s, reachable s -> (length (inflight s) <= 1)%nat.

Definition duplicates_suppressed : Prop :=
  forall s, reachable s ->
    NoDup (map (fun f => (req_page f, req_limit f)) (inflight s)).

Definition stale_discarded : Prop :=
  forall s i f o, reachable s -> inflight s !! i = Some f ->
    req_page f <> currentPage s ->
    let s' := step s (FetchSettled i o) in
    remainingToSelect s' = remainingToSelect s /\ artworks s' = artworks s.

(** A fetch fails when control reaches the [catch] block. *)
Definition fails (f : Fetch) (o : FetchOutcome) (s : State) : Prop :=
  exists s', fetchArtworks_try f o s = Thrown s'.

(** Records and responses used in the examples: a record with the given
    id, and a well-formed response holding the records of the given ids. *)
Definition sample (i : Z) : Artwork :=
  mkArtwork i (Js.Str "Untitled") (Js.Str "France") (Js.Str "Unknown Artist")
    (Js.Str "No Inscriptions") (Js.Num 1900) (Js.Num 1905).

Definition page_of (ids : list Z) (total : Z) : FetchOutcome :=
  Body (Some (map sample ids)) (Some total).

(** A run that leaves a sweep pending: the first page arrives, 5 is
    submitted, and the page of three records arrives again and is swept. *)
Definition swept5 : State :=
  run mount [FetchSettled 0 (page_of [1; 2; 3] 3); InputChange "5"; Submit;
             FetchSettled 0 (page_of [1; 2; 3] 3)].

(** The events of paginating: a page change and the answer to a request. *)
Definition paging (e : Event) : bool :=
  match e with
  | PageChange _ _ | FetchSettled _ _ => true
  | _ => false
  end.

(** A run in which a record is selected by hand before a bulk-select of 2
    is submitted and its page arrives. *)
Definition resubmitted : State :=
  run mount [FetchSettled 0 (page_of [1; 2; 3] 6); SelectionChange [sample 3];
             InputChange "2"; Submit; FetchSettled 0 (page_of [1; 2; 3] 6)].

(** A run that has the first page on display and the second requested,
    and a response to that request that holds records and no pagination
    member. *)
Definition awaiting_page2 : State :=
  run mount [FetchSettled 0 (page_of [1; 2; 3] 6); PageChange (Some 1) 12].

Definition no_pagination : FetchOutcome := Body (Some [sample 4]) None.

(** A run that submits 20 on page 1 and moves to page 2 before the answer
    for page 1 is in: two requests are in flight. *)
Definition overtaken : State :=
  run mount [FetchSettled 0 (page_of [1; 2; 3] 36); InputChange "20"; Submit;
             PageChange (Some 1) 12].

(** ** What the table is handed *)

(** [first={(currentPage - 1) * rows}], the offset of the first row. *)
Definition first (s : State) : Z := (currentPage s - 1) * rows s.

(** [selection={Object.values(selectedArtworks)}]; the order in which the
    values come is left open. *)
Definition selection_prop (s : State) : list Artwork :=
  (map_to_list (selectedArtworks s)).*2.

(** ** Further vocabulary *)

(** None of the defaulted fields is empty, null, undefined or zero. *)
Definition normalized (a : Artwork) : bool :=
  Js.truthy (place_of_origin a) && Js.truthy (artist_display a)
  && Js.truthy (inscriptions a) && Js.truthy (date_start a)
  && Js.truthy (date_end a).

(** Every record of the dictionary sits under its own id. *)
Definition keyed_by_id (sel : gmap Z Artwork) : Prop :=
  forall k a, sel !! k = Some a -> id a = k.

(** The selection and the selection captured by each request in flight
    are keyed by id. *)
Definition keyed_state (s : State) : Prop :=
  keyed_by_id (selectedArtworks s)
  /\ Forall (fun f => keyed_by_id (captured f)) (inflight s).

Fixpoint all_white (s : string) : bool :=
  match s with
  | String c s' => Js.is_white_space c && all_white s'
  | EmptyString => true
  end.

(** The records as the pairs that [newSelections[artwork.id] = artwork]
    stores. *)
Definition entries (recs : list Artwork) : list (Z * Artwork) :=
  map (fun a => (id a, a)) recs.

(** Well-formed answers to a series of requests, applied one after the
    other; each comes with the request it answers. *)
Definition resume_all (pages : list (Fetch * list Artwork * Z)) (s : State)
    : State :=
  fold_left
    (fun st '(f, data, total) =>
       fetchArtworks_resume f (Body (Some data) (Some total)) st)
    pages s.

(** The number of records of a series of pages. *)
Definition records_in (pages : list (Fetch * list Artwork * Z)) : Z :=
  fold_right (fun '(_, data, _) acc => Z.of_nat (length data) + acc) 0 pages.

(** A state with one answer in and one request still out. *)
Definition half_answered : State :=
  step overtaken (FetchSettled 0 (page_of [1; 2; 3] 36)).

(** A run that sweeps the first page of a bulk-select of 20: twelve
    records are selected and eight are pending. *)
Definition swept20 : State :=
  run mount
    [FetchSettled 0 (page_of [1; 2; 3; 4; 5; 6; 7; 8; 9; 10; 11; 12] 24);
     InputChange "20"; Submit;
     FetchSettled 0 (page_of [1; 2; 3; 4; 5; 6; 7; 8; 9; 10; 11; 12] 24)].

(** What the table reports when the last of the twelve rows is
    unticked. *)
Definition unticked : list Artwork :=
  map sample [1; 2; 3; 4; 5; 6; 7; 8; 9; 10; 11].

(** A run that submits 5 on page 1 and moves on to page 2 before the
    answer for page 1 is in; then that answer arrives and is swept.  The
    request for page 2 is still out. *)
Definition hurried : State :=
  run mount [FetchSettled 0 (page_of [1; 2; 3] 6); InputChange "5"; Submit;
             PageChange (Some 1) 12; FetchSettled 0 (page_of [1; 2; 3] 6)].

(** * Properties *)

(** ** Record normalisation and the Date column *)

Section Defaulting.

Variables (v : Js.value) (d : string).

Lemma or_absent : Js.absent v -> Js.or v (Js.Str d) = Js.Str d.
Proof. by intros [-> | ->]. Qed.

Lemma or_empty : v = Js.Str EmptyString -> Js.or v (Js.Str d) = Js.Str d.
Proof. by intros ->. Qed.

Lemma or_text s : s <> EmptyString -> v = Js.Str s -> Js.or v (Js.Str d) = v.
Proof.
  intros Hs ->. unfold Js.or; simpl.
  destruct (String.eqb_spec s EmptyString) as [E | _]; [by destruct Hs | done].
Qed.

Lemma or_year y : y <> 0 -> v = Js.Num y -> Js.or v (Js.Str d) = v.
Proof.
  intros Hy ->. unfold Js.or; simpl.
  destruct (Z.eqb_spec y 0) as [E | _]; [by destruct Hy | done].
Qed.

End Defaulting.

(** C7, as stated, fails: a field that the source sends as the empty
    string, or a year that it sends as 0, is present and still replaced by
    the default. *)
Lemma transform_present_not_kept :
  let raw := mkArtwork 27992 (Js.Str "A Sunday on La Grande Jatte")
               (Js.Str EmptyString) (Js.Str "Georges Seurat") Js.Null
               (Js.Num 0) (Js.Num 1886) in
  ~ Js.absent (place_of_origin raw)
  /\ place_of_origin (transform raw) <> place_of_origin raw
  /\ ~ Js.absent (date_start raw)
  /\ date_start (transform raw) <> date_start raw.
Proof.
  simpl. unfold Js.absent. repeat split; try discriminate; intros [?|?]; discriminate.
Qed.

(** C7 (amended): [transform] passes [id] and [title] through; each of
    origin, attribution and inscriptions keeps a non-empty source text and
    becomes its default ("Unknown", "Unknown Artist", "No Inscriptions")
    when the source value is absent or the empty string; each of the two
    dates keeps a non-zero source year and becomes "N/A" when absent. *)
Theorem transform_defaults (raw : Artwork) :
  id (transform raw) = id raw
  /\ title (transform raw) = title raw
  /\ (forall s, s <> EmptyString -> place_of_origin raw = Js.Str s ->
        place_of_origin (transform raw) = Js.Str s)
  /\ (Js.absent (place_of_origin raw)
      \/ place_of_origin raw = Js.Str EmptyString ->
        place_of_origin (transform raw) = Js.Str "Unknown")
  /\ (forall s, s <> EmptyString -> artist_display raw = Js.Str s ->
        artist_display (transform raw) = Js.Str s)
  /\ (Js.absent (artist_display raw)
      \/ artist_display raw = Js.Str EmptyString ->
        artist_display (transform raw) = Js.Str "Unknown Artist")
  /\ (forall s, s <> EmptyString -> inscriptions raw = Js.Str s ->
        inscriptions (transform raw) = Js.Str s)
  /\ (Js.absent (inscriptions raw)
      \/ inscriptions raw = Js.Str EmptyString ->
        inscriptions (transform raw) = Js.Str "No Inscriptions")
  /\ (forall y, y <> 0 -> date_start raw = Js.Num y ->
        date_start (transform raw) = Js.Num y)
  /\ (Js.absent (date_start raw) -> date_start (transform raw) = Js.Str "N/A")
  /\ (forall y, y <> 0 -> date_end raw = Js.Num y ->
        date_end (transform raw) = Js.Num y)
  /\ (Js.absent (date_end raw) -> date_end (transform raw) = Js.Str "N/A").
Proof.
  destruct raw as [i t po ad ins ds de]; simpl.
  repeat split.
  - intros s Hs E. rewrite <- E. by eapply or_text.
  - intros [H | H]; [by apply or_absent | by apply or_empty].
  - intros s Hs E. rewrite <- E. by eapply or_text.
  - intros [H | H]; [by apply or_absent | by apply or_empty].
  - intros s Hs E. rewrite <- E. by eapply or_text.
  - intros [H | H]; [by apply or_absent | by apply or_empty].
  - intros y Hy E. rewrite <- E. by eapply or_year.
  - apply or_absent.
  - intros y Hy E. rewrite <- E. by eapply or_year.
  - apply or_absent.
Qed.

Lemma transform_defaults_witness :
  let raw := mkArtwork 27992 (Js.Str "A Sunday on La Grande Jatte")
               (Js.Str "France") Js.Null (Js.Str EmptyString) (Js.Num 1884)
               Js.Undefined in
  transform raw =
    mkArtwork 27992 (Js.Str "A Sunday on La Grande Jatte")
      (Js.Str "France") (Js.Str "Unknown Artist") (Js.Str "No Inscriptions")
      (Js.Num 1884) (Js.Str "N/A").
Proof.
  intros raw.
  destruct (transform_defaults raw)
    as (Hid & Ht & Hpo & _ & _ & Had & _ & Hins & Hds & _ & _ & Hde).
  specialize (Hpo "France"%string ltac:(discriminate) eq_refl).
  specialize (Had (or_introl (or_intror eq_refl))).
  specialize (Hins (or_intror eq_refl)).
  specialize (Hds 1884 ltac:(lia) eq_refl).
  specialize (Hde (or_introl eq_refl)).
  destruct (transform raw) as [i t po ad ins ds de]; simpl in *.
  by rewrite Hid, Ht, Hpo, Had, Hins, Hds, Hde.
Defined.

(** C8: the Date column shows the one year when [date_start] equals
    [date_end] (1900 for 1900 and 1900), shows "start - end" when the two
    years differ (1900 - 1905), and shows N/A for a record whose source
    left both dates out. *)
Theorem dateTemplate_renders :
  (forall r, date_start r = date_end r -> dateTemplate r = date_start r)
  /\ (forall r y, date_start r = Js.Num y -> date_end r = Js.Num y ->
        render_date r = pretty y)
  /\ (forall r, date_start r = Js.Num 1900 -> date_end r = Js.Num 1900 ->
        render_date r = "1900"%string)
  /\ (forall r y1 y2, y1 <> y2 ->
        date_start r = Js.Num y1 -> date_end r = Js.Num y2 ->
        render_date r = pretty y1 +:+ " - " +:+ pretty y2)
  /\ (forall r, date_start r = Js.Num 1900 -> date_end r = Js.Num 1905 ->
        render_date r = "1900 - 1905"%string)
  /\ (forall raw, Js.absent (date_start raw) -> Js.absent (date_end raw) ->
        render_date (transform raw) = "N/A"%string).
Proof.
  assert (Hsame : forall r, date_start r = date_end r ->
                            dateTemplate r = date_start r).
  { intros r E. unfold dateTemplate, Js.strict_eq.
    by rewrite bool_decide_eq_true_2. }
  assert (Hdiff : forall r y1 y2, y1 <> y2 ->
            date_start r = Js.Num y1 -> date_end r = Js.Num y2 ->
            render_date r = pretty y1 +:+ " - " +:+ pretty y2).
  { intros r y1 y2 Hne E1 E2. unfold render_date, dateTemplate, Js.strict_eq.
    rewrite E1, E2, bool_decide_eq_false_2; [done | congruence]. }
  repeat split.
  - exact Hsame.
  - intros r y E1 E2. unfold render_date.
    rewrite Hsame by congruence. by rewrite E1.
  - intros r E1 E2. unfold render_date.
    rewrite Hsame by congruence. by rewrite E1.
  - exact Hdiff.
  - intros r E1 E2. by rewrite (Hdiff r 1900 1905).
  - intros raw H1 H2. unfold render_date.
    rewrite Hsame; simpl; rewrite !or_absent; done.
Qed.

Lemma dateTemplate_renders_witness :
  let r a b := mkArtwork 1 (Js.Str "t") (Js.Str "o") (Js.Str "a") (Js.Str "i") a b in
  render_date (r (Js.Num 1900) (Js.Num 1900)) = "1900"%string
  /\ render_date (r (Js.Num 1900) (Js.Num 1905)) = "1900 - 1905"%string
  /\ render_date (transform (r Js.Null Js.Undefined)) = "N/A"%string.
Proof.
  intros r.
  destruct dateTemplate_renders as (_ & _ & H1 & _ & H2 & H3).
  split; [| split].
  - apply H1; reflexivity.
  - apply H2; reflexivity.
  - apply H3; [right | left]; reflexivity.
Defined.

(** ** The guard of the bulk-select submission *)

Lemma digit_val_decimal c :
  Js.digit_val 10 c =
    if is_decimal_digit c then Some (Js.code c - 48) else None.
Proof.
  unfold Js.digit_val, is_decimal_digit.
  destruct ((48 <=? Js.code c) && (Js.code c <=? 57)) eqn:E.
  - destruct (Z.ltb_spec (Js.code c - 48) 10); [done | lia].
  - destruct ((97 <=? Js.code c) && (Js.code c <=? 122)) eqn:E1.
    + destruct (Z.ltb_spec (Js.code c - 87) 10); [lia | done].
    + destruct ((65 <=? Js.code c) && (Js.code c <=? 90)) eqn:E2; [| done].
      destruct (Z.ltb_spec (Js.code c - 55) 10); [lia | done].
Qed.


Lemma strip_prefix_decimal c r :
  c <> "0"%char -> Js.strip_prefix (String c r) = (10, String c r).
Proof.
  intros Hc. unfold Js.strip_prefix.
  destruct c as [[] [] [] [] [] [] [] []]; try reflexivity. by destruct Hc.
Qed.


Lemma digit_val_nonneg R c d : Js.digit_val R c = Some d -> 0 <= d.
Proof.
  unfold Js.digit_val.
  destruct ((48 <=? Js.code c) && (Js.code c <=? 57)) eqn:E0;
    [| destruct ((97 <=? Js.code c) && (Js.code c <=? 122)) eqn:E1;
       [| destruct ((65 <=? Js.code c) && (Js.code c <=? 90)) eqn:E2;
          [| done]]];
    case_match; intros [= <-]; lia.
Qed.

Lemma digits_value_nonneg R t acc :
  0 <= R -> 0 <= acc -> 0 <= Js.digits_value R t acc.
Proof.
  intros HR. revert acc.
  induction t as [| c t IH]; intros acc Hacc; simpl; [done |].
  destruct (Js.digit_val R c) as [d |] eqn:Hd; [| done].
  apply IH. apply digit_val_nonneg in Hd. nia.
Qed.

Lemma strip_prefix_radix t :
  fst (Js.strip_prefix t) = 10 \/ fst (Js.strip_prefix t) = 16.
Proof.
  destruct t as [| c [| c' r]]; [by left | |];
    destruct c as [[] [] [] [] [] [] [] []]; try (by left).
  destruct c' as [[] [] [] [] [] [] [] []]; try (by left); by right.
Qed.







Lemma rejected_noop s :
  rejected (rowsToSelect s) -> handleRowSelectionSubmit s = s.
Proof.
  unfold handleRowSelectionSubmit. intros [-> | (n & -> & Hn)]; [done |].
  by destruct (Z.leb_spec n 0); [| lia].
Qed.

(** An input that does not go on with a digit after its white space and
    sign is not a number for [parseInt]. *)
Lemma parseInt_not_numeric input :
  leads_with_digit input = false -> Js.parseInt input = None.
Proof.
  unfold leads_with_digit, Js.parseInt.
  destruct (Js.strip_sign (Js.trim_start input)) as [sign t]; simpl.
  destruct t as [| c t]; [done |]. intros Hc. simpl in Hc.
  rewrite strip_prefix_decimal by (by intros ->).
  by rewrite digit_val_decimal, Hc.
Qed.

(** An input with a minus sign does not parse to a positive number. *)
Lemma parseInt_minus input n :
  fst (Js.strip_sign (Js.trim_start input)) = -1 ->
  Js.parseInt input = Some n -> n <= 0.
Proof.
  unfold Js.parseInt.
  destruct (Js.strip_sign (Js.trim_start input)) as [sign t]; simpl.
  intros ->. pose proof (strip_prefix_radix t) as HR.
  destruct (Js.strip_prefix t) as [R t2]; simpl in HR.
  destruct t2 as [| c t2]; [done |].
  destruct (Js.digit_val R c); [| done]. intros [= <-].
  assert (0 <= R) as HR0 by lia.
  pose proof (digits_value_nonneg R (String c t2) 0 HR0 (Z.le_refl 0)) as Hnn.
  simpl in Hnn. lia.
Qed.

(** C6: an input that is not numeric (it does not go on with a digit
    after white space and sign, as abc, so [parseInt] gives NaN) or that
    parses to a number that is not positive (as -3, or any input with a
    minus sign) is turned away, and then the submission changes nothing at
    all: the whole state, with the selection, the selected count, the
    counter, the input field, the requests in flight and the toasts, is
    the one before. *)
Theorem invalid_submission_is_noop :
  rejected "abc" /\ rejected "-3"
  /\ (forall input, leads_with_digit input = false -> rejected input)
  /\ (forall input, fst (Js.strip_sign (Js.trim_start input)) = -1 ->
        rejected input)
  /\ (forall s, rejected (rowsToSelect s) -> step s Submit = s).
Proof.
  split_and!.
  - by left.
  - right. exists (-3). by split.
  - intros input H. left. by apply parseInt_not_numeric.
  - intros input H. destruct (Js.parseInt input) as [n |] eqn:E; [| by left].
    right. exists n. split; [done |]. by eapply parseInt_minus.
  - intros s H. by apply rejected_noop.
Qed.

Lemma invalid_submission_is_noop_witness :
  step (setRowsToSelect "abc" mount) Submit = setRowsToSelect "abc" mount
  /\ step (setRowsToSelect "-3" mount) Submit = setRowsToSelect "-3" mount.
Proof.
  destruct invalid_submission_is_noop as (_ & _ & Hnon & Hminus & H).
  split; apply H; simpl; [apply Hnon | apply Hminus]; reflexivity.
Defined.

Lemma accepted_submission s n :
  Js.parseInt (rowsToSelect s) = Some n -> 0 < n ->
  handleRowSelectionSubmit s =
    mkState ∅ (artworks s) true (currentPage s) (totalRecords s) (rows s)
      EmptyString 0 n false (toasts s)
      (inflight s ++ [mkFetch (currentPage s) (rows s) (selectedArtworks s)]).
Proof.
  unfold handleRowSelectionSubmit. intros -> Hn.
  by destruct (Z.leb_spec n 0); [lia |].
Qed.




(** ** Manual selection while a sweep is pending *)

Lemma reachable_run s es : reachable s -> reachable (run s es).
Proof.
  revert s. induction es as [| e es IH]; intros s Hs; [done |].
  apply IH. by constructor.
Qed.

Lemma swept5_reachable : reachable swept5.
Proof. apply reachable_run, reachable_mount. Qed.

(** C3: the code at the failing input.  After a bulk-select of 20 the
    first page is swept: twelve records are selected and the counter is
    at 8.  The user unticks one row; the event carries the eleven records
    that stay selected, none of them newly added.  The counter is lowered
    by all eleven and ends at 0 with a selected count of 11: the eight
    records still owed are never swept. *)
Theorem untick_ends_sweep :
  let s' := step swept20 (SelectionChange unticked) in
  reachable swept20
  /\ remainingToSelect swept20 = 8 /\ totalSelected swept20 = 12
  /\ newly_added (selectedArtworks swept20) unticked = 0
  /\ remainingToSelect s' = 0 /\ totalSelected s' = 11.
Proof.
  intros s'. split; [apply reachable_run, reachable_mount |].
  by vm_compute.
Qed.

(** ** The sweep *)

Lemma add_selections_cons a recs sel :
  add_selections (a :: recs) sel = add_selections recs (<[id a := a]> sel).
Proof. reflexivity. Qed.

Lemma add_selections_keeps recs (sel : gmap Z Artwork) k :
  is_Some (sel !! k) -> is_Some (add_selections recs sel !! k).
Proof.
  revert sel. induction recs as [| b recs IH]; intros sel Hk; [done |].
  rewrite add_selections_cons. apply IH.
  destruct (decide (id b = k)) as [<- | Hne].
  - rewrite lookup_insert_eq. by eexists.
  - by rewrite lookup_insert_ne.
Qed.

Lemma add_selections_selected recs (sel : gmap Z Artwork) a :
  a ∈ recs -> is_Some (add_selections recs sel !! id a).
Proof.
  revert sel. induction recs as [| b recs IH]; intros sel Ha.
  - by apply elem_of_nil in Ha.
  - rewrite add_selections_cons.
    apply elem_of_cons in Ha as [-> | Ha]; [| by apply IH].
    apply add_selections_keeps. rewrite lookup_insert_eq. by eexists.
Qed.

Lemma add_selections_other recs (sel : gmap Z Artwork) k :
  k ∉ map id recs -> add_selections recs sel !! k = sel !! k.
Proof.
  revert sel. induction recs as [| b recs IH]; intros sel Hk; [done |].
  simpl in Hk. apply not_elem_of_cons in Hk as [Hne Hk].
  rewrite add_selections_cons, IH by done. by rewrite lookup_insert_ne.
Qed.

Lemma slice0_take {A} (l : list A) (k : Z) :
  0 <= k -> Js.slice0 k l = take (Z.to_nat k) l.
Proof.
  intros Hk. unfold Js.slice0.
  destruct (Z.ltb_spec k 0); [lia |].
  destruct (Z.min_spec k (Z.of_nat (length l))) as [[_ ->] | [Hle ->]]; [done |].
  rewrite Nat2Z.id, firstn_all. symmetry. apply firstn_all2. lia.
Qed.

Lemma sweep_idle f recs s : remainingToSelect s <= 0 -> sweep f recs s = s.
Proof.
  unfold sweep. intros H.
  by destruct (Z.ltb_spec 0 (remainingToSelect s)); [lia |].
Qed.

Lemma sweep_running f recs s :
  0 < remainingToSelect s ->
  let k := Z.min (remainingToSelect s) (Z.of_nat (length recs)) in
  sweep f recs s =
    mkState (add_selections (take (Z.to_nat k) recs) (captured f))
      (artworks s) (loading s) (currentPage s) (totalRecords s) (rows s)
      (rowsToSelect s) (totalSelected s + k) (remainingToSelect s - k)
      (overlayOpen s) (toasts s) (inflight s).
Proof.
  intros Hpos k. unfold sweep.
  destruct (Z.ltb_spec 0 (remainingToSelect s)); [| lia].
  fold k. rewrite slice0_take by lia. reflexivity.
Qed.

Lemma resume_success f data total s :
  fetchArtworks_resume f (Body (Some data) (Some total)) s =
    sweep f (map transform data)
      (setLoading false
         (setTotalRecords total (setArtworks (map transform data) s))).
Proof. reflexivity. Qed.

(** What one answered request does to the counter, the selected count
    and the selection. *)
Lemma page_sweep f data total s :
  0 <= remainingToSelect s ->
  let recs := map transform data in
  let k := Z.min (remainingToSelect s) (Z.of_nat (length recs)) in
  let s' := fetchArtworks_resume f (Body (Some data) (Some total)) s in
  remainingToSelect s' = remainingToSelect s - k
  /\ totalSelected s' = totalSelected s + k
  /\ (0 < remainingToSelect s ->
        selectedArtworks s' = add_selections (take (Z.to_nat k) recs) (captured f))
  /\ (remainingToSelect s = 0 -> selectedArtworks s' = selectedArtworks s)
  /\ (forall a, 0 < remainingToSelect s -> a ∈ take (Z.to_nat k) recs ->
        is_Some (selectedArtworks s' !! id a)).
Proof.
  intros Hnn recs k s'. subst s'. rewrite resume_success. fold recs.
  set (s1 := setLoading false _).
  assert (Hrem : remainingToSelect s1 = remainingToSelect s) by reflexivity.
  destruct (decide (0 < remainingToSelect s)) as [Hpos | Hzero].
  - rewrite sweep_running by (rewrite Hrem; done). rewrite Hrem. fold k. simpl.
    repeat split; try done; try lia. intros a _ Ha. by apply add_selections_selected.
  - assert (remainingToSelect s = 0) as H0 by lia.
    rewrite sweep_idle by (rewrite Hrem; lia). subst k. simpl.
    rewrite H0, Z.min_l by lia.
    repeat split; try done; try lia.
Qed.

(** A request that is answered when the counter is at zero, or that
    fails, leaves the selection, the selected count and the counter. *)
Lemma settle_idle s i o :
  remainingToSelect s = 0 ->
  let s' := step s (FetchSettled i o) in
  selectedArtworks s' = selectedArtworks s
  /\ totalSelected s' = totalSelected s
  /\ remainingToSelect s' = 0.
Proof.
  intros H0; simpl. destruct (inflight s !! i) as [f |]; [| done].
  destruct o as [| | [data |] [total |]]; try done.
  rewrite resume_success, sweep_idle; [done | simpl; lia].
Qed.

(** Submitting [n] and receiving the page: the sweep starts from the
    selection that the submitting render saw. *)
Lemma submit_then_settle s n data total :
  Js.parseInt (rowsToSelect s) = Some n -> 0 < n ->
  let recs := map transform data in
  let k := Z.min n (Z.of_nat (length recs)) in
  run s [Submit; FetchSettled (length (inflight s)) (Body (Some data) (Some total))] =
    mkState (add_selections (take (Z.to_nat k) recs) (selectedArtworks s))
      recs false (currentPage s) total (rows s) EmptyString k (n - k)
      false (toasts s) (inflight s).
Proof.
  intros Hp Hn recs k. unfold run; simpl.
  rewrite (accepted_submission s n) by done. simpl.
  rewrite list_lookup_middle by done. rewrite delete_middle, app_nil_r.
  rewrite resume_success, sweep_running by done. simpl.
  fold recs. fold k. f_equal.
Qed.

(** Changing the page and receiving it. *)
Lemma page_then_settle s pg r data total :
  pg + 1 <> currentPage s ->
  let recs := map transform data in
  run s [PageChange (Some pg) r;
         FetchSettled (length (inflight s)) (Body (Some data) (Some total))] =
    sweep (mkFetch (pg + 1) r (selectedArtworks s)) recs
      (mkState (selectedArtworks s) recs false (pg + 1) total r
         (rowsToSelect s) (totalSelected s) (remainingToSelect s)
         (overlayOpen s) (toasts s) (inflight s)).
Proof.
  intros Hpg recs. unfold run; simpl. unfold onPage, effect; simpl.
  rewrite bool_decide_eq_false_2 by done. simpl.
  rewrite list_lookup_middle by done. rewrite delete_middle, app_nil_r.
  by rewrite resume_success.
Qed.

Lemma idle_paging s e :
  remainingToSelect s = 0 -> paging e = true ->
  selectedArtworks (step s e) = selectedArtworks s
  /\ totalSelected (step s e) = totalSelected s
  /\ remainingToSelect (step s e) = 0.
Proof.
  intros H0 He. destruct e as [pg r | | | | | | i o]; try discriminate.
  - simpl. unfold onPage, effect.
    destruct pg as [p |]; simpl; case_match; done.
  - by apply settle_idle.
Qed.

Lemma idle_paging_run es : forall s,
  remainingToSelect s = 0 -> Forall (fun e => paging e = true) es ->
  selectedArtworks (run s es) = selectedArtworks s
  /\ totalSelected (run s es) = totalSelected s
  /\ remainingToSelect (run s es) = 0.
Proof.
  induction es as [| e es IH]; intros s H0 Hes; [done |].
  apply Forall_cons in Hes as [He Hes].
  destruct (idle_paging s e H0 He) as (Hsel & Htot & Hrem).
  destruct (IH (step s e) Hrem Hes) as (Hsel' & Htot' & Hrem').
  unfold run in *; simpl. by rewrite Hsel', Htot', Hsel, Htot.
Qed.

(** The run of 20 over two pages of 12, one after the other: the first
    page leaves counter 8 and count 12 with its 12 records selected; the
    second leaves counter 0 and count 20 with its first 8 records
    selected beside the 12 of the first; whatever is paged and fetched
    after that changes neither the selection nor the count nor the
    counter. *)
Lemma twenty_over_two_pages s0 page1 page2 total1 total2 pg r :
  Js.parseInt (rowsToSelect s0) = Some 20 ->
  length page1 = 12%nat -> length page2 = 12%nat ->
  pg + 1 <> currentPage s0 ->
  let n := length (inflight s0) in
  let s2 := run s0 [Submit;
                    FetchSettled n (Body (Some page1) (Some total1))] in
  let s4 := run s2 [PageChange (Some pg) r;
                    FetchSettled n (Body (Some page2) (Some total2))] in
  remainingToSelect s2 = 8 /\ totalSelected s2 = 12
  /\ (forall a, a ∈ map transform page1 ->
        is_Some (selectedArtworks s2 !! id a))
  /\ remainingToSelect s4 = 0 /\ totalSelected s4 = 20
  /\ (forall a, a ∈ take 8 (map transform page2) ->
        is_Some (selectedArtworks s4 !! id a))
  /\ (forall a, a ∈ map transform page1 ->
        is_Some (selectedArtworks s4 !! id a))
  /\ (forall es, Forall (fun e => paging e = true) es ->
        selectedArtworks (run s4 es) = selectedArtworks s4
        /\ totalSelected (run s4 es) = 20
        /\ remainingToSelect (run s4 es) = 0).
Proof.
  intros Hp H1 H2 Hpg n s2 s4.
  assert (E2 : s2 =
    mkState (add_selections (map transform page1) (selectedArtworks s0))
      (map transform page1) false (currentPage s0) total1 (rows s0)
      EmptyString 12 8 false (toasts s0) (inflight s0)).
  { subst s2 n. rewrite (submit_then_settle s0 20) by (done || lia).
    rewrite length_map, H1. simpl.
    rewrite firstn_all2 by (rewrite length_map; lia). done. }
  assert (E4 : s4 =
    mkState (add_selections (take 8 (map transform page2)) (selectedArtworks s2))
      (map transform page2) false (pg + 1) total2 r EmptyString 20 0
      false (toasts s0) (inflight s0)).
  { subst s4. replace n with (length (inflight s2)) by (by rewrite E2).
    rewrite page_then_settle by (by rewrite E2).
    rewrite sweep_running by (rewrite E2; simpl; lia).
    rewrite E2; simpl. rewrite length_map, H2. done. }
  assert (Hkeep : forall a, a ∈ map transform page1 ->
                            is_Some (selectedArtworks s2 !! id a)).
  { intros a Ha. rewrite E2; simpl. by apply add_selections_selected. }
  split_and!.
  - by rewrite E2.
  - by rewrite E2.
  - exact Hkeep.
  - by rewrite E4.
  - by rewrite E4.
  - intros a Ha. rewrite E4; simpl. by apply add_selections_selected.
  - intros a Ha. rewrite E4; simpl. by apply add_selections_keeps, Hkeep.
  - intros es Hes.
    destruct (idle_paging_run es s4) as (Hsel & Htot & Hrem);
      [by rewrite E4 | done |].
    split_and!; [done | | done]. rewrite Htot. by rewrite E4.
Qed.

(** C1: the code at the failing input.  A bulk-select of 5 is submitted
    on page 1 and the user moves on to page 2 before the answer is in.
    The answer for page 1 is swept: records 1, 2, 3 are selected, count
    3, counter 2.  Then the answer for page 2 is swept.  Its request left
    when the selection was empty and the sweep builds on that captured
    selection: the two leading records 4 and 5 are not added to the three
    selected ones but replace them.  The selected count says 5 and the
    counter 0, and the selection holds 4 and 5 only. *)
Theorem hurried_sweep_replaces_selection :
  let s' := step hurried (FetchSettled 0 (page_of [4; 5; 6] 6)) in
  reachable hurried
  /\ inflight hurried = [mkFetch 2 12 ∅]
  /\ dom (selectedArtworks hurried) = ({[1; 2; 3]} : gset Z)
  /\ totalSelected hurried = 3 /\ remainingToSelect hurried = 2
  /\ dom (selectedArtworks s') = ({[4; 5]} : gset Z)
  /\ totalSelected s' = 5 /\ remainingToSelect s' = 0.
Proof.
  intros s'. split; [apply reachable_run, reachable_mount |].
  by vm_compute.
Qed.

(** ** Submission of a new bulk-select *)

(** At the submission itself the selection and the selected count are
    reset, the counter is set and the current page is requested again. *)
Lemma submission_resets s n :
  Js.parseInt (rowsToSelect s) = Some n -> 0 < n ->
  let s' := step s Submit in
  selectedArtworks s' = ∅ /\ totalSelected s' = 0
  /\ remainingToSelect s' = n /\ overlayOpen s' = false
  /\ inflight s' =
       inflight s ++ [mkFetch (currentPage s) (rows s) (selectedArtworks s)].
Proof.
  intros Hp Hn; simpl. by rewrite (accepted_submission s n).
Qed.

(** The selection that the sweep of the submission's own request leaves is
    built on the selection held before the submission. *)
Lemma submission_sweep_selection s n data total a :
  Js.parseInt (rowsToSelect s) = Some n -> 0 < n ->
  is_Some (selectedArtworks s !! id a) ->
  let s' := run s [Submit; FetchSettled (length (inflight s))
                             (Body (Some data) (Some total))] in
  is_Some (selectedArtworks s' !! id a).
Proof.
  intros Hp Hn Ha s'. subst s'. rewrite (submit_then_settle s n) by done.
  simpl. by apply add_selections_keeps.
Qed.

(** C2: the code at the failing input.  Record 3 is selected by hand, then
    2 is submitted on a page whose records are 1, 2, 3.  The submission
    empties the selection, but the sweep of the page it requests starts
    from the selection of the render that submitted: afterwards the
    selected count is 2 and the selection holds records 1, 2 and also 3,
    which was selected before the submission and is not among the two
    leading records. *)
Theorem submission_sweep_revives_selection :
  reachable resubmitted
  /\ remainingToSelect resubmitted = 0
  /\ totalSelected resubmitted = 2
  /\ dom (selectedArtworks resubmitted) = ({[1; 2; 3]} : gset Z)
  /\ selectedArtworks resubmitted !! 3 = Some (sample 3).
Proof.
  split; [apply reachable_run, reachable_mount |].
  split; [reflexivity |]. split; [reflexivity |]. split; [| reflexivity].
  vm_compute. reflexivity.
Qed.

(** ** Failing fetches *)

Lemma resume_no_pagination f data s :
  fetchArtworks_resume f (Body (Some data) None) s =
    on_catch (setArtworks (map transform data) s).
Proof. reflexivity. Qed.

Lemma fails_inv f o s :
  fails f o s ->
  fetchArtworks_resume f o s = on_catch s
  \/ exists data, o = Body (Some data) None.
Proof.
  intros [s' Hs']. destruct o as [| | [data |] [total |]]; eauto.
  discriminate Hs'.
Qed.

(** Every failure is caught: the loading flag is lowered, one toast is
    added, and the total, the selection, the selected count and the
    counter are kept; the records on display are kept as long as the
    failure does not come from a body that has records and no pagination
    member. *)
Lemma failure_is_caught f o s :
  fails f o s ->
  let s' := fetchArtworks_resume f o s in
  loading s' = false
  /\ toasts s' = toasts s ++ [fetch_failed_toast]
  /\ totalRecords s' = totalRecords s
  /\ selectedArtworks s' = selectedArtworks s
  /\ totalSelected s' = totalSelected s
  /\ remainingToSelect s' = remainingToSelect s
  /\ ((forall data, o <> Body (Some data) None) -> artworks s' = artworks s).
Proof.
  intros Hf s'. subst s'.
  destruct (fails_inv f o s Hf) as [-> | [data ->]]; [done |].
  rewrite resume_no_pagination. split_and!; try done.
  intros H. by destruct (H data).
Qed.

Lemma awaiting_page2_reachable : reachable awaiting_page2.
Proof. apply reachable_run, reachable_mount. Qed.

(** C5: the code at the failing input.  With records 1, 2, 3 on display
    and page 2 requested, the body of the response holds a record list
    and no pagination member.  Reading the total throws after the records
    have been stored: the failure is caught and one toast is shown, the
    total, the selection, the count and the counter are kept, but the
    records on display are already those of the failed response. *)
Theorem late_failure_overwrites_records :
  let s := awaiting_page2 in
  let s' := step s (FetchSettled 0 no_pagination) in
  reachable s
  /\ inflight s !! 0%nat = Some (mkFetch 2 12 ∅)
  /\ fails (mkFetch 2 12 ∅) no_pagination (set_inflight [] s)
  /\ artworks s = map sample [1; 2; 3]
  /\ artworks s' = [sample 4]
  /\ loading s' = false
  /\ toasts s' = toasts s ++ [fetch_failed_toast]
  /\ totalRecords s' = totalRecords s
  /\ selectedArtworks s' = selectedArtworks s.
Proof.
  intros s s'. split_and!; try reflexivity.
  - apply awaiting_page2_reachable.
  - unfold fails, no_pagination. eexists. reflexivity.
Qed.

(** ** The counter over all runs *)

Lemma resume_counter_nonneg f o s :
  0 <= remainingToSelect s -> 0 <= remainingToSelect (fetchArtworks_resume f o s).
Proof.
  intros Hnn. destruct o as [| | [data |] [total |]]; try done.
  destruct (page_sweep f data total s Hnn) as (-> & _). lia.
Qed.

Lemma step_counter_nonneg s e :
  0 <= remainingToSelect s -> 0 <= remainingToSelect (step s e).
Proof.
  intros Hnn. destruct e as [pg r | v | | selection | | | i o]; simpl; try done.
  - unfold onPage, effect. destruct pg; simpl; case_match; done.
  - unfold handleRowSelectionSubmit.
    destruct (Js.parseInt (rowsToSelect s)) as [n |]; [| done].
    destruct (Z.leb_spec n 0); [done | simpl; lia].
  - unfold onSelectionChange; simpl.
    destruct (0 <? remainingToSelect s); simpl; lia.
  - destruct (inflight s !! i); [| done]. by apply resume_counter_nonneg.
Qed.

Lemma counter_nonneg s : reachable s -> 0 <= remainingToSelect s.
Proof.
  induction 1 as [| s e _ IH]; [done |]. by apply step_counter_nonneg.
Qed.

Lemma idle_step s e :
  remainingToSelect s = 0 -> accepts s e = false ->
  remainingToSelect (step s e) = 0.
Proof.
  intros H0 He. destruct e as [pg r | v | | selection | | | i o]; simpl; try done.
  - unfold onPage, effect. destruct pg; simpl; case_match; done.
  - unfold handleRowSelectionSubmit. simpl in He.
    destruct (Js.parseInt (rowsToSelect s)) as [n |]; [| done].
    by destruct (n <=? 0).
  - unfold onSelectionChange; simpl. by rewrite H0.
  - by apply settle_idle.
Qed.

Lemma idle_run es : forall s,
  remainingToSelect s = 0 -> no_submission s es ->
  remainingToSelect (run s es) = 0.
Proof.
  induction es as [| e es IH]; intros s H0 Hes; [done |].
  destruct Hes as [He Hes]. apply IH; [by apply idle_step | done].
Qed.

(** C4: the counter is never negative in a reachable state; Clear
    Selection puts the counter and the selected count at zero; and from a
    state whose counter is zero, as long as no submission is accepted, the
    counter stays zero and no page change and no answered request changes
    the selection or the selected count. *)
Theorem counter_invariant :
  (forall s, reachable s -> 0 <= remainingToSelect s)
  /\ (forall s, remainingToSelect (step s ClearSelection) = 0
                /\ totalSelected (step s ClearSelection) = 0
                /\ selectedArtworks (step s ClearSelection) = ∅)
  /\ (forall s es, remainingToSelect s = 0 -> no_submission s es ->
        let s' := run s es in
        remainingToSelect s' = 0
        /\ forall e, paging e = true ->
             selectedArtworks (step s' e) = selectedArtworks s'
             /\ totalSelected (step s' e) = totalSelected s'
             /\ remainingToSelect (step s' e) = 0).
Proof.
  split; [exact counter_nonneg |]. split; [done |].
  intros s es H0 Hes s'.
  assert (Hs' : remainingToSelect s' = 0) by (by apply idle_run).
  split; [done |]. intros e He. by apply idle_paging.
Qed.

Lemma counter_invariant_witness :
  0 <= remainingToSelect swept5
  /\ remainingToSelect
       (run (step swept5 ClearSelection)
          [PageChange (Some 1) 12; FetchSettled 0 (page_of [4; 5; 6] 6)]) = 0.
Proof.
  destruct counter_invariant as (Hnn & _ & Hidle).
  split.
  - apply Hnn, swept5_reachable.
  - apply (Hidle (step swept5 ClearSelection)); [reflexivity |].
    simpl. repeat split; reflexivity.
Defined.

(** ** Requests in flight *)

Lemma overtaken_reachable : reachable overtaken.
Proof. apply reachable_run, reachable_mount. Qed.

(** C9, as stated, fails.  Going from page 1 to page 2, back and to page
    2 again before any answer is in leaves two requests for page 1 and two
    for page 2 in flight, all of the same page size; and in [overtaken]
    the answer for page 1 arrives when page 2 is the current page and is
    applied all the same: it replaces the records on display and lowers
    the counter from 20 to 17. *)
Lemma fetches_not_guarded :
  ~ duplicates_suppressed /\ ~ one_at_a_time /\ ~ stale_discarded.
Proof.
  split; [| split].
  - intros H.
    specialize (H (run mount [PageChange (Some 1) 12; PageChange (Some 0) 12;
                              PageChange (Some 1) 12])
                  (reachable_run _ _ reachable_mount)).
    vm_compute in H. apply NoDup_cons in H as [H _]. apply H.
    right. by left.
  - intros H. specialize (H overtaken overtaken_reachable).
    vm_compute in H. lia.
  - intros H.
    destruct (H overtaken 0%nat (mkFetch 1 12 ∅) (page_of [1; 2; 3] 36)
                overtaken_reachable eq_refl) as [Hrem _].
    + vm_compute. discriminate.
    + vm_compute in Hrem. discriminate.
Qed.

(** C9 (amended): nothing is suppressed and nothing is discarded.  An
    accepted submission and a page change that alters the page or the page
    size each put one more request in flight, whatever is outstanding; and
    the answer to any outstanding request, for whatever page and in
    whatever order, is applied: a well-formed response replaces the
    records and the total and lowers the counter by min(counter, length
    of the page). *)
Theorem fetches_all_applied :
  (forall s n, Js.parseInt (rowsToSelect s) = Some n -> 0 < n ->
     inflight (step s Submit) =
       inflight s ++ [mkFetch (currentPage s) (rows s) (selectedArtworks s)])
  /\ (forall s pg r, pg + 1 <> currentPage s \/ r <> rows s ->
        inflight (step s (PageChange (Some pg) r)) =
          inflight s ++ [mkFetch (pg + 1) r (selectedArtworks s)])
  /\ (forall s i f data total,
        inflight s !! i = Some f -> 0 <= remainingToSelect s ->
        let s' := step s (FetchSettled i (Body (Some data) (Some total))) in
        artworks s' = map transform data
        /\ totalRecords s' = total
        /\ remainingToSelect s' =
             remainingToSelect s
             - Z.min (remainingToSelect s) (Z.of_nat (length data))
        /\ inflight s' = delete i (inflight s)).
Proof.
  split_and!.
  - intros s n Hp Hn. by destruct (submission_resets s n Hp Hn) as (_ & _ & _ & _ & ?).
  - intros s pg r Hch. simpl. unfold onPage, effect; simpl.
    destruct Hch as [Hpg | Hr].
    + by rewrite bool_decide_eq_false_2.
    + rewrite (bool_decide_eq_false_2 (r = rows s)) by done.
      by rewrite andb_false_r.
  - intros s i f data total Hf Hnn; simpl. rewrite Hf.
    set (s1 := set_inflight _ s).
    destruct (page_sweep f data total s1 Hnn) as (Hrem & _).
    rewrite Hrem, length_map.
    rewrite resume_success.
    set (s2 := setLoading false _).
    destruct (decide (0 < remainingToSelect s)) as [Hpos | Hzero].
    + by rewrite sweep_running.
    + by rewrite sweep_idle by (simpl; lia).
Qed.

Lemma fetches_all_applied_witness :
  length (inflight (step (setRowsToSelect "3" mount) Submit)) = 2%nat
  /\ remainingToSelect
       (step overtaken (FetchSettled 0 (page_of [1; 2; 3] 36))) = 17.
Proof.
  destruct fetches_all_applied as (Hsub & _ & Hset).
  split.
  - rewrite (Hsub (setRowsToSelect "3" mount) 3); [reflexivity .. | lia].
  - destruct (Hset overtaken 0%nat (mkFetch 1 12 ∅) (map sample [1; 2; 3]) 36)
      as (_ & _ & Hrem & _); [reflexivity | vm_compute; discriminate |].
    exact Hrem.
Defined.

(** * Further properties of the component *)

(** ** Normalised records *)

Lemma or_truthy v d :
  d <> EmptyString -> Js.truthy (Js.or v (Js.Str d)) = true.
Proof.
  intros Hd. unfold Js.or. destruct (Js.truthy v) eqn:E; [done |]. simpl.
  destruct (String.eqb_spec d EmptyString); [done | reflexivity].
Qed.

Lemma or_twice v d :
  d <> EmptyString -> Js.or (Js.or v (Js.Str d)) (Js.Str d) = Js.or v (Js.Str d).
Proof.
  intros Hd. unfold Js.or at 1. by rewrite or_truthy.
Qed.

Lemma transform_is_normalized a : normalized (transform a) = true.
Proof. unfold normalized; simpl. by rewrite !or_truthy. Qed.

(** X8: whatever the response holds, after [transform] none of origin,
    attribution, inscriptions and the two dates is empty, null, undefined
    or zero, and normalising a record a second time changes nothing. *)
Theorem transform_normalizes (a : Artwork) :
  normalized (transform a) = true /\ transform (transform a) = transform a.
Proof.
  split; [apply transform_is_normalized |].
  unfold transform; simpl. by rewrite !or_twice.
Qed.

(** X11: when the source leaves out one of the two dates and sends a
    non-zero year for the other, the Date column shows N/A on the side
    that was left out: "N/A - 1905" or "1900 - N/A". *)
Theorem dateTemplate_one_sided (raw : Artwork) (y : Z) :
  y <> 0 ->
  (Js.absent (date_start raw) -> date_end raw = Js.Num y ->
     render_date (transform raw) = "N/A - " +:+ pretty y)
  /\ (date_start raw = Js.Num y -> Js.absent (date_end raw) ->
        render_date (transform raw) = pretty y +:+ " - N/A").
Proof.
  intros Hy. split.
  - intros Habs He. unfold render_date, dateTemplate, Js.strict_eq; simpl.
    rewrite or_absent by done. rewrite (or_year _ _ y) by done.
    rewrite He, bool_decide_eq_false_2 by discriminate. reflexivity.
  - intros Hs Habs. unfold render_date, dateTemplate, Js.strict_eq; simpl.
    rewrite (or_absent (date_end raw)) by done.
    rewrite (or_year _ _ y) by done.
    rewrite Hs, bool_decide_eq_false_2 by discriminate. reflexivity.
Qed.

Lemma dateTemplate_one_sided_witness :
  render_date (transform (mkArtwork 1 (Js.Str "t") Js.Null Js.Null Js.Null
                            Js.Null (Js.Num 1905)))
  = "N/A - 1905"%string.
Proof.
  refine (proj1 (dateTemplate_one_sided _ 1905 _) _ _);
    [lia | by right | reflexivity].
Defined.

(** ** What [parseInt] reads *)

Lemma decimal_not_white c :
  is_decimal_digit c = true -> Js.is_white_space c = false.
Proof. unfold is_decimal_digit, Js.is_white_space. lia. Qed.

Lemma decimal_not_sign c r :
  is_decimal_digit c = true -> Js.strip_sign (String c r) = (1, String c r).
Proof.
  destruct c as [[] [] [] [] [] [] [] []]; vm_compute; intros; congruence.
Qed.

Lemma pretty_char_digit d :
  (d < 10)%N ->
  Js.digit_val 10 (pretty_N_char d) = Some (Z.of_N d)
  /\ is_decimal_digit (pretty_N_char d) = true.
Proof.
  intros Hd.
  assert (d = 0 \/ d = 1 \/ d = 2 \/ d = 3 \/ d = 4 \/ d = 5 \/ d = 6
          \/ d = 7 \/ d = 8 \/ d = 9)%N as H by lia.
  repeat (destruct H as [-> | H]; [by vm_compute |]). subst. by vm_compute.
Qed.

(** Reading the spelling of [x] put in front of [s] is reading [s] with
    [x] already read. *)
Lemma digits_value_pretty x : forall s,
  Js.digits_value 10 (pretty_N_go x s) 0 = Js.digits_value 10 s (Z.of_N x).
Proof.
  induction (N.lt_wf_0 x) as [x _ IH]; intros s.
  destruct (decide (x = 0)%N) as [-> | Hx]; [by rewrite pretty_N_go_0 |].
  rewrite pretty_N_go_step by lia.
  rewrite IH by (apply N.div_lt; lia). simpl.
  destruct (pretty_char_digit (x `mod` 10)) as [-> _];
    [by apply N.mod_lt |].
  f_equal. rewrite N2Z.inj_div, N2Z.inj_mod. change (Z.of_N 10) with 10.
  rewrite (Z.mul_comm _ 10). symmetry. by apply Z.div_mod.
Qed.

(** The spelling of a positive number starts with a digit other than 0. *)
Lemma pretty_go_head x : forall s,
  (0 < x)%N ->
  exists c r, pretty_N_go x s = String c r
              /\ is_decimal_digit c = true /\ c <> "0"%char.
Proof.
  induction (N.lt_wf_0 x) as [x _ IH]; intros s Hx.
  rewrite pretty_N_go_step by done.
  destruct (decide (x `div` 10 = 0)%N) as [E | E].
  - rewrite E, pretty_N_go_0. eexists _, _. split; [done |].
    assert (x < 10)%N as Hlt by (apply N.div_small_iff in E; lia).
    rewrite N.mod_small by done.
    assert (x = 1 \/ x = 2 \/ x = 3 \/ x = 4 \/ x = 5 \/ x = 6
            \/ x = 7 \/ x = 8 \/ x = 9)%N as H by lia.
    repeat (destruct H as [-> | H]; [by vm_compute |]). subst. by vm_compute.
  - apply IH; [apply N.div_lt; lia | by apply N.neq_0_lt_0].
Qed.

Lemma parseInt_digits c r :
  is_decimal_digit c = true -> c <> "0"%char ->
  Js.parseInt (String c r) = Some (Js.digits_value 10 (String c r) 0)
  /\ Js.parseInt (String "-" (String c r)) =
       Some (- Js.digits_value 10 (String c r) 0).
Proof.
  intros Hc Hz. unfold Js.parseInt.
  change (Js.trim_start (String "-" (String c r)))
    with (String "-" (String c r)).
  change (Js.strip_sign (String "-" (String c r))) with (-1, String c r).
  assert (Js.trim_start (String c r) = String c r) as ->
    by (simpl; by rewrite decimal_not_white).
  rewrite decimal_not_sign by done.
  rewrite strip_prefix_decimal by done.
  rewrite digit_val_decimal, Hc. split; f_equal; lia.
Qed.

(** X12: [parseInt] reads back the decimal spelling of every integer of
    magnitude up to 2^53 - 1: typing such a number into the field gives
    the guard that number. *)
Theorem parseInt_pretty (n : Z) :
  Z.abs n <= Js.max_safe_integer -> Js.parseInt (pretty n) = Some n.
Proof.
  intros _. destruct n as [| p | p]; [reflexivity | |].
  - change (pretty (Z.pos p)) with (pretty (N.pos p)).
    unfold pretty, pretty_N. rewrite decide_False by done.
    destruct (pretty_go_head (N.pos p) EmptyString) as (c & r & E & Hc & Hz);
      [lia |].
    pose proof (digits_value_pretty (N.pos p) EmptyString) as Hv.
    rewrite E in *.
    destruct (parseInt_digits c r Hc Hz) as [-> _]. by rewrite Hv.
  - change (pretty (Z.neg p)) with ("-" +:+ pretty (N.pos p)).
    unfold pretty, pretty_N. rewrite decide_False by done.
    destruct (pretty_go_head (N.pos p) EmptyString) as (c & r & E & Hc & Hz);
      [lia |].
    pose proof (digits_value_pretty (N.pos p) EmptyString) as Hv.
    rewrite E in *.
    change ("-" +:+ String c r) with (String "-" (String c r)).
    destruct (parseInt_digits c r Hc Hz) as [_ ->]. by rewrite Hv.
Qed.

Lemma parseInt_pretty_witness : Js.parseInt (pretty 2024) = Some 2024.
Proof. apply parseInt_pretty. by vm_compute. Defined.

Lemma trim_start_white ws s :
  all_white ws = true -> Js.trim_start (ws +:+ s) = Js.trim_start s.
Proof.
  induction ws as [| c ws IH]; [done |]. simpl.
  intros [Hc Hws]%andb_true_iff.
  change (String c ws +:+ s) with (String c (ws +:+ s)). simpl.
  rewrite Hc. by apply IH.
Qed.

(** X13: white space in front of the input is not read: [parseInt]
    gives the same with and without leading blanks, tabs or line breaks,
    and an accepted submission ends in the same state either way. *)
Theorem leading_white_space_ignored (ws input : string) (s : State) :
  all_white ws = true ->
  Js.parseInt (ws +:+ input) = Js.parseInt input
  /\ (forall n, Js.parseInt input = Some n -> 0 < n ->
        handleRowSelectionSubmit (setRowsToSelect (ws +:+ input) s)
        = handleRowSelectionSubmit (setRowsToSelect input s)).
Proof.
  intros Hws.
  assert (E : Js.parseInt (ws +:+ input) = Js.parseInt input).
  { unfold Js.parseInt. by rewrite trim_start_white. }
  split; [done |]. intros n Hn Hpos.
  rewrite (accepted_submission (setRowsToSelect (ws +:+ input) s) n)
    by (by simpl; rewrite ?E).
  by rewrite (accepted_submission (setRowsToSelect input s) n).
Qed.

Lemma leading_white_space_ignored_witness :
  Js.parseInt "  20" = Some 20.
Proof.
  refine (eq_trans
            (proj1 (leading_white_space_ignored "  " "20" mount eq_refl)) _).
  reflexivity.
Defined.

(** X14: submitting twice in a row is submitting once: an accepted
    submission empties the input field, so the second one is turned away
    and starts no second request. *)
Theorem submit_twice (s : State) :
  step (step s Submit) Submit = step s Submit.
Proof.
  simpl. destruct (Js.parseInt (rowsToSelect s)) as [n |] eqn:E.
  - destruct (decide (n <= 0)) as [Hn | Hn].
    + rewrite !(rejected_noop s); try done; right; by exists n.
    + by rewrite (accepted_submission s n) by (done || lia).
  - rewrite !(rejected_noop s); try done; by left.
Qed.

(** ** The selection as a dictionary *)

Lemma entries_keys recs : (entries recs).*1 = map id recs.
Proof.
  induction recs as [| a recs IH]; [done |].
  change (id a :: (entries recs).*1 = id a :: map id recs). by rewrite IH.
Qed.

Lemma entries_values recs : (entries recs).*2 = recs.
Proof.
  induction recs as [| a recs IH]; [done |].
  change (a :: (entries recs).*2 = a :: recs). by rewrite IH.
Qed.

Lemma add_selections_dom recs (sel : gmap Z Artwork) :
  dom (add_selections recs sel) = list_to_set (map id recs) ∪ dom sel.
Proof.
  revert sel. induction recs as [| a recs IH]; intros sel.
  - simpl. by rewrite (left_id_L ∅ (∪)).
  - rewrite add_selections_cons, IH, dom_insert_L. simpl.
    rewrite (assoc_L (∪)). f_equal. apply (comm_L (∪)).
Qed.

(** With ids that differ, the loop builds the dictionary of its entries
    on top of the one it started from. *)
Lemma add_selections_union recs (sel : gmap Z Artwork) :
  NoDup (map id recs) ->
  add_selections recs sel = list_to_map (entries recs) ∪ sel.
Proof.
  revert sel. induction recs as [| a recs IH]; intros sel Hnd.
  - simpl. by rewrite (left_id_L ∅ (∪)).
  - simpl in Hnd. apply NoDup_cons in Hnd as [Ha Hnd].
    rewrite add_selections_cons, IH by done. simpl.
    rewrite <- insert_union_l. symmetry. apply insert_union_r.
    apply not_elem_of_list_to_map_1. by rewrite entries_keys.
Qed.

Lemma add_selections_lookup recs (sel : gmap Z Artwork) a :
  NoDup (map id recs) -> a ∈ recs -> add_selections recs sel !! id a = Some a.
Proof.
  intros Hnd Ha. rewrite add_selections_union by done.
  apply lookup_union_Some_l, elem_of_list_to_map_1.
  - by rewrite entries_keys.
  - unfold entries. apply list_elem_of_In, in_map_iff. exists a.
    split; [done |]. by apply list_elem_of_In.
Qed.

Lemma add_selections_size recs :
  NoDup (map id recs) -> size (add_selections recs ∅) = length recs.
Proof.
  intros Hnd. rewrite add_selections_union by done.
  rewrite (right_id_L ∅ (∪)), map_size_list_to_map by (by rewrite entries_keys).
  unfold entries. by rewrite length_map.
Qed.

Lemma add_selections_values recs :
  NoDup (map id recs) ->
  (map_to_list (add_selections recs ∅)).*2 ≡ₚ recs.
Proof.
  intros Hnd. rewrite add_selections_union by done.
  rewrite (right_id_L ∅ (∪)).
  rewrite map_to_list_to_map by (by rewrite entries_keys).
  by rewrite entries_values.
Qed.

(** X7: a sweep over [recs] on top of the selection [sel] selects exactly
    the ids of [sel] and of [recs]: no id of [sel] is lost and none is
    made up; and with ids that differ each record of [recs] is then the
    one found under its id, also where [sel] held another record there. *)
Theorem sweep_selects_ids (recs : list Artwork) (sel : gmap Z Artwork) :
  dom (add_selections recs sel) = list_to_set (map id recs) ∪ dom sel
  /\ (forall k, k ∉ map id recs -> add_selections recs sel !! k = sel !! k)
  /\ (NoDup (map id recs) ->
        forall a, a ∈ recs -> add_selections recs sel !! id a = Some a).
Proof.
  split_and!.
  - apply add_selections_dom.
  - intros k Hk. by apply add_selections_other.
  - intros Hnd a Ha. by apply add_selections_lookup.
Qed.

Lemma sweep_selects_ids_witness :
  add_selections [sample 1; sample 2] {[1 := sample 7]} !! 1 = Some (sample 1).
Proof.
  destruct (sweep_selects_ids [sample 1; sample 2] {[1 := sample 7]})
    as (_ & _ & H).
  assert (Hnd : NoDup (map id [sample 1; sample 2]))
    by (apply (bool_decide_unpack _); by vm_compute).
  apply (H Hnd (sample 1)). by left.
Defined.

(** X6: a selection-change event replaces the selection by the records
    it carries.  When their ids differ, each record is found under its
    id, the dictionary has as many entries as the selected count says,
    and the values handed back to the table are the records of the event
    up to their order.  An event with no record empties the selection and
    the count and leaves the counter. *)
Theorem selection_change_round_trip (s : State) (selection : list Artwork) :
  (NoDup (map id selection) ->
     let s' := onSelectionChange selection s in
     (forall a, a ∈ selection -> selectedArtworks s' !! id a = Some a)
     /\ Z.of_nat (size (selectedArtworks s')) = totalSelected s'
     /\ selection_prop s' ≡ₚ selection)
  /\ (forall k, k ∉ map id selection ->
        selectedArtworks (onSelectionChange selection s) !! k = None)
  /\ (let s0 := onSelectionChange [] s in
      selectedArtworks s0 = ∅ /\ totalSelected s0 = 0
      /\ remainingToSelect s0 = remainingToSelect s).
Proof.
  assert (Hsel : forall l, selectedArtworks (onSelectionChange l s)
                           = add_selections l ∅).
  { intros l. unfold onSelectionChange. by case_match. }
  assert (Htot : forall l, totalSelected (onSelectionChange l s)
                           = Z.of_nat (length l)).
  { intros l. unfold onSelectionChange. by case_match. }
  split_and!.
  - intros Hnd s'. subst s'. unfold selection_prop. rewrite Hsel, Htot.
    split_and!.
    + intros a Ha. by apply add_selections_lookup.
    + by rewrite add_selections_size.
    + by apply add_selections_values.
  - intros k Hk. rewrite Hsel, add_selections_other by done. done.
  - intros s0. subst s0. rewrite Hsel, Htot. split_and!; try done.
    unfold onSelectionChange; simpl. case_match; [simpl; lia | done].
Qed.

Lemma selection_change_round_trip_witness :
  selection_prop (onSelectionChange [sample 2; sample 1] mount)
    ≡ₚ [sample 2; sample 1].
Proof.
  destruct (selection_change_round_trip mount [sample 2; sample 1])
    as (H & _).
  apply H. apply (bool_decide_unpack _). by vm_compute.
Defined.

(** ** Pagination *)

Lemma onPage_same p r s :
  p + 1 = currentPage s -> r = rows s -> onPage (Some p) r s = s.
Proof.
  intros Hp ->. unfold onPage, effect; simpl.
  rewrite !bool_decide_eq_true_2 by done. simpl.
  rewrite Hp. by destruct s.
Qed.

(** X1: a page event for the page and page size already shown changes
    nothing and requests nothing.  An event without a page index keeps
    the current page: with the same page size it changes nothing, with
    another it requests the current page again at the new size. *)
Theorem onPage_unchanged (s : State) :
  (forall p, p + 1 = currentPage s -> step s (PageChange (Some p) (rows s)) = s)
  /\ step s (PageChange None (rows s)) = s
  /\ (forall r, r <> rows s ->
        let s' := step s (PageChange None r) in
        currentPage s' = currentPage s /\ rows s' = r /\ loading s' = true
        /\ inflight s' =
             inflight s ++ [mkFetch (currentPage s) r (selectedArtworks s)]).
Proof.
  split_and!.
  - intros p Hp. by apply onPage_same.
  - simpl. unfold onPage, effect; simpl.
    rewrite !bool_decide_eq_true_2 by done. by destruct s.
  - intros r Hr; simpl. unfold onPage, effect; simpl.
    rewrite (bool_decide_eq_false_2 (r = rows s)) by done.
    by rewrite andb_false_r.
Qed.

Lemma onPage_unchanged_witness :
  step mount (PageChange (Some 0) 12) = mount.
Proof.
  destruct (onPage_unchanged mount) as (H & _). apply (H 0). reflexivity.
Defined.

(** X2: the offset handed to the paginator follows the page event: after
    an event for page index [p] with page size [r] it is [p * r], whether
    or not the event started a request. *)
Theorem first_follows_page (s : State) (p r : Z) :
  first (step s (PageChange (Some p) r)) = p * r.
Proof.
  simpl. unfold onPage, effect, first; simpl.
  case_match; simpl; lia.
Qed.

(** ** The loading flag, the toasts and the records on display *)

Lemma resume_loading f o s : loading (fetchArtworks_resume f o s) = false.
Proof.
  destruct o as [| | [data |] [total |]]; try done.
  rewrite resume_success. unfold sweep. by case_match.
Qed.

Lemma loading_step s e :
  (loading s = true ->
   exists f, last (inflight s) = Some f
             /\ req_page f = currentPage s /\ req_limit f = rows s) ->
  loading (step s e) = true ->
  exists f, last (inflight (step s e)) = Some f
            /\ req_page f = currentPage (step s e)
            /\ req_limit f = rows (step s e).
Proof.
  intros IH. destruct e as [pg r | v | | selection | | | i o]; simpl.
  - unfold onPage, effect. case_match; [destruct pg; simpl in *|].
    + match goal with H : _ && _ = true |- _ =>
        apply andb_true_iff in H as [H1 H2];
        apply bool_decide_eq_true in H1; apply bool_decide_eq_true in H2
      end.
      simpl in *. intros Hl. destruct (IH Hl) as (f & ? & ? & ?).
      exists f. split_and!; congruence.
    + match goal with H : _ && _ = true |- _ =>
        apply andb_true_iff in H as [H1 H2];
        apply bool_decide_eq_true in H1; apply bool_decide_eq_true in H2
      end.
      simpl in *. intros Hl. destruct (IH Hl) as (f & ? & ? & ?).
      exists f. split_and!; congruence.
    + intros _. eexists. simpl. rewrite last_snoc. by split_and!.
  - exact IH.
  - unfold handleRowSelectionSubmit.
    destruct (Js.parseInt (rowsToSelect s)) as [n |]; [| exact IH].
    destruct (n <=? 0); [exact IH |].
    intros _. eexists. simpl. rewrite last_snoc. by split_and!.
  - unfold onSelectionChange; simpl. by case_match.
  - exact IH.
  - exact IH.
  - destruct (inflight s !! i) as [f |]; [| exact IH].
    by rewrite resume_loading.
Qed.

(** X3: in every reachable state in which the loading flag is up, the
    request sent last is still in flight and it is the one for the current
    page at the current page size. *)
Theorem loading_means_current_request (s : State) :
  reachable s -> loading s = true ->
  exists f, last (inflight s) = Some f
            /\ req_page f = currentPage s /\ req_limit f = rows s.
Proof.
  induction 1 as [| s e _ IH].
  - intros _. by eexists.
  - by apply loading_step.
Qed.

Lemma loading_means_current_request_witness :
  exists f, last (inflight overtaken) = Some f
            /\ req_page f = currentPage overtaken
            /\ req_limit f = rows overtaken.
Proof.
  apply loading_means_current_request;
    [apply reachable_run, reachable_mount | reflexivity].
Defined.

(** X4: the answer to any request in flight, well-formed or failing,
    lowers the loading flag, also while other requests are still out: in
    the reachable state [half_answered] the flag is down and a request is
    in flight. *)
Theorem any_answer_lowers_loading :
  (forall s i f o, inflight s !! i = Some f ->
     loading (step s (FetchSettled i o)) = false)
  /\ (reachable half_answered /\ loading half_answered = false
      /\ inflight half_answered = [mkFetch 2 12 ∅]).
Proof.
  split.
  - intros s i f o Hf; simpl. rewrite Hf. apply resume_loading.
  - split; [| by vm_compute].
    apply reachable_step, reachable_run, reachable_mount.
Qed.

Lemma any_answer_lowers_loading_witness :
  loading (step mount (FetchSettled 0 FetchRejected)) = false.
Proof.
  apply (proj1 any_answer_lowers_loading mount 0%nat (mkFetch 1 12 ∅)).
  reflexivity.
Defined.

Lemma resume_toasts f o s :
  toasts (fetchArtworks_resume f o s) = toasts s
  \/ toasts (fetchArtworks_resume f o s) = toasts s ++ [fetch_failed_toast].
Proof.
  destruct o as [| | [data |] [total |]]; try (by right).
  left. rewrite resume_success. unfold sweep. by case_match.
Qed.

Lemma resume_artworks f o s :
  artworks (fetchArtworks_resume f o s) = artworks s
  \/ exists data, artworks (fetchArtworks_resume f o s) = map transform data.
Proof.
  destruct o as [| | [data |] [total |]]; try (by left).
  - right. exists data. rewrite resume_success. unfold sweep. by case_match.
  - right. by exists data.
Qed.

Lemma step_toasts s e :
  toasts (step s e) = toasts s
  \/ toasts (step s e) = toasts s ++ [fetch_failed_toast].
Proof.
  destruct e as [pg r | v | | selection | | | i o]; simpl; try (by left).
  - left. unfold onPage, effect. destruct pg; simpl; by case_match.
  - left. unfold handleRowSelectionSubmit. by repeat case_match.
  - left. unfold onSelectionChange; simpl. by case_match.
  - destruct (inflight s !! i) as [f |]; [| by left].
    destruct (resume_toasts f o (set_inflight (delete i (inflight s)) s));
      auto.
Qed.

Lemma step_artworks s e :
  artworks (step s e) = artworks s
  \/ exists data, artworks (step s e) = map transform data.
Proof.
  destruct e as [pg r | v | | selection | | | i o]; simpl; try (by left).
  - left. unfold onPage, effect. destruct pg; simpl; by case_match.
  - left. unfold handleRowSelectionSubmit. by repeat case_match.
  - left. unfold onSelectionChange; simpl. by case_match.
  - destruct (inflight s !! i) as [f |]; [| by left].
    destruct (resume_artworks f o (set_inflight (delete i (inflight s)) s));
      auto.
Qed.

(** X5: the only message the component ever shows is the fetch-failure
    toast: in every reachable state each toast shown so far is the error
    "Failed to fetch artworks" with a life of 3000 ms, and no event
    removes a toast or adds more than one. *)
Theorem toasts_are_fetch_failures :
  (forall s, reachable s -> Forall (fun t => t = fetch_failed_toast) (toasts s))
  /\ (forall s e, toasts (step s e) = toasts s
                  \/ toasts (step s e) = toasts s ++ [fetch_failed_toast]).
Proof.
  split; [| exact step_toasts].
  induction 1 as [| s e _ IH]; [by constructor |].
  destruct (step_toasts s e) as [-> | ->]; [done |].
  apply Forall_app. split; [done | by repeat constructor].
Qed.

Lemma toasts_are_fetch_failures_witness :
  Forall (fun t => t = fetch_failed_toast)
    (toasts (step awaiting_page2 (FetchSettled 0 no_pagination))).
Proof.
  apply (proj1 toasts_are_fetch_failures).
  apply reachable_step, reachable_run, reachable_mount.
Defined.

(** X9: in every reachable state each record on display is normalised:
    none of its origin, attribution, inscriptions and dates is empty,
    null, undefined or zero. *)
Theorem displayed_records_normalized (s : State) :
  reachable s -> Forall (fun a => normalized a = true) (artworks s).
Proof.
  induction 1 as [| s e _ IH]; [by constructor |].
  destruct (step_artworks s e) as [-> | [data ->]]; [done |].
  apply Forall_forall. intros a Ha%list_elem_of_In.
  apply in_map_iff in Ha as [raw [<- _]]. apply transform_is_normalized.
Qed.

Lemma displayed_records_normalized_witness :
  Forall (fun a => normalized a = true) (artworks swept5).
Proof.
  apply displayed_records_normalized, reachable_run, reachable_mount.
Defined.

(** ** The selection is keyed by id *)

Lemma add_selections_keyed recs sel :
  keyed_by_id sel -> keyed_by_id (add_selections recs sel).
Proof.
  revert sel. induction recs as [| b recs IH]; intros sel Hsel; [done |].
  rewrite add_selections_cons. apply IH. intros k a.
  destruct (decide (id b = k)) as [<- | Hne].
  - rewrite lookup_insert_eq. by intros [= <-].
  - rewrite lookup_insert_ne by done. apply Hsel.
Qed.

Lemma keyed_empty : keyed_by_id ∅.
Proof. intros k a. by rewrite lookup_empty. Qed.

Lemma resume_selection f o s :
  inflight (fetchArtworks_resume f o s) = inflight s
  /\ (selectedArtworks (fetchArtworks_resume f o s) = selectedArtworks s
      \/ exists recs, selectedArtworks (fetchArtworks_resume f o s)
                      = add_selections recs (captured f)).
Proof.
  destruct o as [| | [data |] [total |]]; try (by split; [| left]).
  rewrite resume_success. unfold sweep. case_match; [| by split; [| left]].
  split; [done |]. right. by eexists.
Qed.

Lemma keyed_step s e : keyed_state s -> keyed_state (step s e).
Proof.
  intros [Hsel Hfl].
  assert (Hpush : forall s1 p l,
            selectedArtworks s1 = selectedArtworks s ->
            inflight s1 = inflight s ->
            keyed_state (fetchArtworks_start p l (selectedArtworks s) s1)).
  { intros s1 p l E1 E2. split; simpl; [by rewrite E1 |].
    rewrite E2. apply Forall_app. split; [done | by repeat constructor]. }
  destruct e as [pg r | v | | selection | | | i o]; simpl; try (by split).
  - unfold onPage, effect. case_match.
    + by destruct pg.
    + destruct pg; by apply Hpush.
  - unfold handleRowSelectionSubmit.
    destruct (Js.parseInt (rowsToSelect s)) as [n |]; [| by split].
    destruct (n <=? 0); [by split |].
    split; simpl; [apply keyed_empty |].
    apply Forall_app. split; [done | by repeat constructor].
  - unfold onSelectionChange; simpl.
    case_match;
      (split; simpl; [by apply add_selections_keyed, keyed_empty | done]).
  - destruct (inflight s !! i) as [f |] eqn:Hf; [| by split].
    assert (keyed_by_id (captured f)) as Hcap
      by (by eapply (proj1 (Forall_lookup _ _) Hfl)).
    destruct (resume_selection f o (set_inflight (delete i (inflight s)) s))
      as [E Hs].
    unfold keyed_state. rewrite E.
    split; simpl; [| by apply Forall_delete].
    destruct Hs as [-> | [recs ->]]; [done | by apply add_selections_keyed].
Qed.

(** X10: in every reachable state each record of the selection sits
    under its own id, so that looking a row up by its id finds that row
    or nothing; the same holds of the selection that each request in
    flight has captured. *)
Theorem selection_keyed_by_id (s : State) :
  reachable s ->
  (forall k a, selectedArtworks s !! k = Some a -> id a = k)
  /\ Forall (fun f => forall k a, captured f !! k = Some a -> id a = k)
       (inflight s).
Proof.
  induction 1 as [| s e _ IH].
  - split; [apply keyed_empty |]. repeat constructor. apply keyed_empty.
  - by apply keyed_step.
Qed.

Lemma selection_keyed_by_id_witness :
  selectedArtworks resubmitted !! 3 = Some (sample 3) /\ id (sample 3) = 3.
Proof.
  split; [reflexivity |].
  apply (proj1 (selection_keyed_by_id resubmitted
                  (reachable_run _ _ reachable_mount)) 3 (sample 3)).
  reflexivity.
Defined.

(** ** The counter and the selected count *)

Lemma resume_balance f o s :
  let s' := fetchArtworks_resume f o s in
  totalSelected s' + remainingToSelect s'
    = totalSelected s + remainingToSelect s
  /\ (0 <= remainingToSelect s -> 0 <= remainingToSelect s' <= remainingToSelect s).
Proof.
  destruct o as [| | [data |] [total |]]; simpl; try (split; [done | lia]).
  rewrite resume_success.
  set (s1 := setLoading false _).
  destruct (decide (0 < remainingToSelect s)) as [Hpos | Hz].
  - rewrite sweep_running by done. simpl. lia.
  - rewrite sweep_idle by (simpl; lia). simpl. lia.
Qed.

(** X15: only an accepted submission raises the counter: in a reachable
    state every other event leaves it where it is or lowers it. *)
Theorem counter_only_raised_by_submission (s : State) (e : Event) :
  reachable s -> accepts s e = false ->
  remainingToSelect (step s e) <= remainingToSelect s.
Proof.
  intros Hs%counter_nonneg He.
  destruct e as [pg r | v | | selection | | | i o]; simpl; try lia.
  - unfold onPage, effect. destruct pg; simpl; case_match; simpl; lia.
  - unfold handleRowSelectionSubmit. simpl in He.
    destruct (Js.parseInt (rowsToSelect s)) as [n |]; [| lia].
    destruct (n <=? 0); [lia | done].
  - unfold onSelectionChange; simpl. case_match; simpl; lia.
  - destruct (inflight s !! i) as [f |]; [| lia].
    by apply (resume_balance f o (set_inflight (delete i (inflight s)) s)).
Qed.

Lemma counter_only_raised_by_submission_witness :
  remainingToSelect (step swept5 (PageChange (Some 1) 12))
    <= remainingToSelect swept5.
Proof.
  apply counter_only_raised_by_submission;
    [apply reachable_run, reachable_mount | reflexivity].
Defined.

Lemma paging_balance s e :
  paging e = true ->
  totalSelected (step s e) + remainingToSelect (step s e)
    = totalSelected s + remainingToSelect s.
Proof.
  destruct e as [pg r | | | | | | i o]; try discriminate; intros _; simpl.
  - unfold onPage, effect. destruct pg; simpl; by case_match.
  - destruct (inflight s !! i) as [f |]; [| done].
    by apply (resume_balance f o (set_inflight (delete i (inflight s)) s)).
Qed.

Lemma paging_counter s e :
  paging e = true -> 0 <= remainingToSelect s ->
  0 <= remainingToSelect (step s e) <= remainingToSelect s.
Proof.
  destruct e as [pg r | | | | | | i o]; try discriminate; intros _ Hnn; simpl.
  - unfold onPage, effect. destruct pg; simpl; case_match; simpl; lia.
  - destruct (inflight s !! i) as [f |]; [| lia].
    by apply (resume_balance f o (set_inflight (delete i (inflight s)) s)).
Qed.

Lemma paging_run es : forall s,
  Forall (fun e => paging e = true) es ->
  totalSelected (run s es) + remainingToSelect (run s es)
    = totalSelected s + remainingToSelect s
  /\ (0 <= remainingToSelect s ->
      0 <= remainingToSelect (run s es) <= remainingToSelect s).
Proof.
  induction es as [| e es IH]; intros s Hes.
  { unfold run; simpl. split; [done | lia]. }
  apply Forall_cons in Hes as [He Hes].
  destruct (IH (step s e) Hes) as [Hbal Hle].
  unfold run in *; simpl. rewrite Hbal, paging_balance by done.
  split; [done |]. intros Hnn.
  pose proof (paging_counter s e He Hnn). lia.
Qed.

(** X16: paginating moves records from the counter to the selected
    count and loses none.  While the selected count and the counter are
    not negative and their sum is at most 2^53 - 1, over any run of page
    changes and answered requests, well-formed or failing and in any
    order, the sum stays what it was, the counter does not grow and the
    selected count does not shrink.  After an accepted submission of [n],
    at most 2^53 - 1, that sum is [n], so the selected count is [n] minus
    the counter and never more than [n]. *)
Theorem paging_keeps_balance (es : list Event) (s : State) :
  Forall (fun e => paging e = true) es ->
  (0 <= totalSelected s -> 0 <= remainingToSelect s ->
   totalSelected s + remainingToSelect s <= Js.max_safe_integer ->
   totalSelected (run s es) + remainingToSelect (run s es)
     = totalSelected s + remainingToSelect s
   /\ 0 <= remainingToSelect (run s es) <= remainingToSelect s
   /\ totalSelected s <= totalSelected (run s es) <= Js.max_safe_integer)
  /\ (forall n, Js.parseInt (rowsToSelect s) = Some n -> 0 < n ->
        n <= Js.max_safe_integer ->
        let s' := run (step s Submit) es in
        totalSelected s' + remainingToSelect s' = n
        /\ 0 <= totalSelected s' <= n).
Proof.
  intros Hes. split.
  - intros Htot Hrem Hsafe.
    destruct (paging_run es s Hes) as [Hbal Hle]. lia.
  - intros n Hp Hn Hsafe s'. subst s'.
    destruct (submission_resets s n Hp Hn) as (_ & Htot & Hrem & _).
    destruct (paging_run es (step s Submit) Hes) as [Hbal Hle].
    rewrite Htot, Hrem in *. split; lia.
Qed.

Lemma paging_keeps_balance_witness :
  let s := run mount [FetchSettled 0 (page_of [1; 2; 3] 6);
                      InputChange "5"] in
  let es := [FetchSettled 0 (page_of [1; 2; 3] 6); PageChange (Some 1) 12;
             FetchSettled 0 (page_of [4; 5; 6] 6)] in
  totalSelected (run (step s Submit) es)
  + remainingToSelect (run (step s Submit) es) = 5.
Proof.
  intros s es.
  assert (Hes : Forall (fun e => paging e = true) es) by (by repeat constructor).
  destruct (proj2 (paging_keeps_balance es s Hes) 5) as [H _];
    [reflexivity | lia | by vm_compute |].
  exact H.
Defined.

Lemma records_in_nonneg pages : 0 <= records_in pages.
Proof.
  induction pages as [| [[f data] total] pages IH]; simpl; lia.
Qed.

(** X17: the counter and the selected count after well-formed answers
    applied one after the other.  While the two are not negative and
    their sum is at most 2^53 - 1, with [n] the counter before and [m]
    the number of records in the answers, the counter ends at
    max(0, n - m) and the selected count has grown by min(n, m); once the
    answers hold [n] records or more the counter is at 0.  Which records
    the selection then holds depends on what each request captured and is
    not said here. *)
Theorem sweep_over_pages (pages : list (Fetch * list Artwork * Z)) (s : State) :
  0 <= remainingToSelect s -> 0 <= totalSelected s ->
  totalSelected s + remainingToSelect s <= Js.max_safe_integer ->
  remainingToSelect (resume_all pages s)
    = Z.max 0 (remainingToSelect s - records_in pages)
  /\ totalSelected (resume_all pages s)
     = totalSelected s + Z.min (remainingToSelect s) (records_in pages).
Proof.
  revert s.
  induction pages as [| [[f data] total] pages IH]; intros s Hnn Htn Hsafe.
  - simpl. lia.
  - unfold resume_all in *; simpl.
    destruct (page_sweep f data total s Hnn) as (Hrem & Htot & _).
    rewrite length_map in Hrem, Htot.
    pose proof (records_in_nonneg pages) as Hm.
    destruct (IH (fetchArtworks_resume f (Body (Some data) (Some total)) s))
      as [-> ->]; [lia .. |].
    rewrite Hrem, Htot. lia.
Qed.

Lemma sweep_over_pages_witness :
  let s := step (setRowsToSelect "5" mount) Submit in
  let pages := [(mkFetch 1 12 ∅, map sample [1; 2; 3], 9);
                (mkFetch 2 12 ∅, map sample [4; 5; 6], 9)] in
  remainingToSelect (resume_all pages s) = 0
  /\ totalSelected (resume_all pages s) = 5.
Proof.
  intros s pages.
  destruct (sweep_over_pages pages s) as [-> ->]; try by vm_compute.
Defined.

Lemma transform_ids data : map id (map transform data) = map id data.
Proof. induction data as [| a data IH]; [done |]. simpl. by rewrite IH. Qed.

Lemma NoDup_ids_take k (recs : list Artwork) :
  NoDup (map id recs) -> NoDup (map id (take k recs)).
Proof.
  intros Hnd. rewrite <- firstn_map.
  eapply sublist_NoDup; [done | apply sublist_take].
Qed.

(** X18: a bulk-select submitted while nothing is selected, answered by
    a page whose ids differ, leaves a selection that agrees with the
    selected count: it has min(n, length of the page) entries, and the
    values handed back to the table are the leading records of the page
    up to their order. *)
Theorem fresh_bulk_select_agrees (s : State) (n : Z) (data : list Artwork)
    (total : Z) :
  selectedArtworks s = ∅ ->
  Js.parseInt (rowsToSelect s) = Some n -> 0 < n ->
  NoDup (map id data) ->
  let k := Z.min n (Z.of_nat (length data)) in
  let s' := run s [Submit; FetchSettled (length (inflight s))
                             (Body (Some data) (Some total))] in
  totalSelected s' = k
  /\ Z.of_nat (size (selectedArtworks s')) = k
  /\ selection_prop s' ≡ₚ take (Z.to_nat k) (map transform data).
Proof.
  intros Hempty Hp Hn Hnd k s'. subst s'.
  rewrite (submit_then_settle s n) by done.
  unfold selection_prop; simpl. rewrite Hempty, length_map. fold k.
  assert (Hnd' : NoDup (map id (take (Z.to_nat k) (map transform data)))).
  { apply NoDup_ids_take. by rewrite transform_ids. }
  split_and!; [done | | by apply add_selections_values].
  rewrite add_selections_size by done.
  rewrite length_take, length_map. subst k. lia.
Qed.

Lemma fresh_bulk_select_agrees_witness :
  let s := run mount [FetchSettled 0 (page_of [1; 2; 3] 6); InputChange "2"] in
  let s' := run s [Submit; FetchSettled 0 (page_of [1; 2; 3] 6)] in
  totalSelected s' = 2 /\ Z.of_nat (size (selectedArtworks s')) = 2.
Proof.
  intros s s'.
  destruct (fresh_bulk_select_agrees s 2 (map sample [1; 2; 3]) 6)
    as (H1 & H2 & _);
    [reflexivity | reflexivity | lia
    | apply (bool_decide_unpack _); by vm_compute |].
  exact (conj H1 H2).
Defined.
